(** * rpcserver: an RPC dispatcher over HTTP with pluggable codecs

    Shallow embedding of [server.go] (the dispatcher: [NewServer],
    [RegisterCodec], [HasMethod], [ServeHTTP], [WriteError]) and of the
    example arithmetic service of [jsonrpc-sample/main.go], followed by the
    properties the specification states about them.

    Go strings are byte strings ([string]); Go's [int] is taken at its 64-bit
    width with two's complement wrap-around; maps are [gmap]s; the effects of
    the handler (writes to the [http.ResponseWriter], calls on the codec and
    on the service) are threaded through a small state-and-trace monad. *)

From Stdlib Require Import ZArith String Ascii List Lia.
From stdpp Require Import base option gmap strings list fin_maps.

Local Open Scope Z_scope.
Local Open Scope string_scope.

(** ** The Go runtime the dispatcher is generic in *)

(** What the dispatcher only passes around: request bodies, reflected types
    and the values behind the pointers [reflect.New] returns, the receiver
    object, Go's [strings.ToLower], and the texts of the registry's errors. *)
Class GoEnv := {
  Body : Type;
  GoType : Type;
  Value : Type;
  Rcvr : Type;
  New : GoType → Value;
  ToLower : string → string;
  registrationText : string;
  notFoundText : string → string;
}.

(** Go [error] values: the two errors of the method registry and
    [errors.New(msg)], which also stands for the errors of a codec. *)
Inductive error :=
| RegistrationError
| NotFoundError (name : string)
| ErrorString (msg : string).

(** ** Strings *)

(** [strings.Index(s, substr)]: byte index of the first occurrence, or -1. *)
Definition strings_Index (s substr : string) : Z :=
  match String.index 0 substr s with
  | Some n => Z.of_nat n
  | None => -1
  end.

(** The slice [s[:idx]]. *)
Definition slice_to (s : string) (idx : Z) : string :=
  String.substring 0 (Z.to_nat idx) s.

(** ASCII lower-casing: what [strings.ToLower] does to the bytes below 128. *)
Definition lower_ascii (c : ascii) : ascii :=
  let n := N_of_ascii c in
  if ((65 <=? n) && (n <=? 90))%N then ascii_of_N (n + 32) else c.

Fixpoint lower_string (s : string) : string :=
  match s with
  | EmptyString => EmptyString
  | String c rest => String (lower_ascii c) (lower_string rest)
  end.

(** ** net/http *)

(** [http.Header] and its [Get]: the first value under the key, or [""]. *)
Definition Header_Get (h : gmap string (list string)) (key : string) : string :=
  match h !! key with
  | Some (v :: _) => v
  | _ => ""
  end.

(** An [http.ResponseWriter] as net/http documents it: [WriteHeader] sends
    the status line with the header map as it stands (changing the map
    afterwards has no effect on what was sent), a second [WriteHeader] is
    ignored, and the first [Write] sends status 200 if none was sent. *)
Record ResponseWriter := {
  header : gmap string (list string);
  sent : option (Z * gmap string (list string));
  written : string;
}.

Definition rw_WriteHeader (status : Z) (w : ResponseWriter) : ResponseWriter :=
  match sent w with
  | Some _ => w
  | None => {| header := header w; sent := Some (status, header w); written := written w |}
  end.

Definition rw_Header_Set (key value : string) (w : ResponseWriter) : ResponseWriter :=
  {| header := <[key := [value]]> (header w); sent := sent w; written := written w |}.

Definition rw_Write (data : string) (w : ResponseWriter) : ResponseWriter :=
  let w := rw_WriteHeader 200 w in
  {| header := header w; sent := sent w; written := written w +:+ data |}.

(** A response writer nothing was written to. *)
Definition newResponseWriter : ResponseWriter :=
  {| header := ∅; sent := None; written := "" |}.

(** The calls the handler makes, in program order: on the response writer
    ([w.WriteHeader], [w.Header().Set], [fmt.Fprint]), on the registry
    ([Get]), on the codec and its request object, and on the service
    method ([methodSpec.method.Func.Call], with the argument and the reply
    handed to it). [V] is the type of the values behind the pointers. *)
Inductive Event (V : Type) :=
| EvWriteHeader (status : Z)
| EvHeaderSet (key value : string)
| EvFprint (msg : string)
| EvGet (name : string)
| EvNewRequest
| EvError
| EvMethod
| EvReadRequest (args : V)
| EvCall (name : string) (args reply : V)
| EvWriteResponse (reply : V)
| EvCodecWriteError (status : Z) (err : error).
Arguments EvWriteHeader {V} status.
Arguments EvHeaderSet {V} key value.
Arguments EvFprint {V} msg.
Arguments EvGet {V} name.
Arguments EvNewRequest {V}.
Arguments EvError {V}.
Arguments EvMethod {V}.
Arguments EvReadRequest {V} args.
Arguments EvCall {V} name args reply.
Arguments EvWriteResponse {V} reply.
Arguments EvCodecWriteError {V} status err.

(** ** Other response writers *)

(** [http.ResponseWriter] is an interface: the handler is given whatever
    implements it. An implementation is a state with the three operations
    the handler uses, and what it has sent as status line and header. *)
Record WriterImpl := {
  wi_state : Type;
  wi_WriteHeader : Z → wi_state → wi_state;
  wi_Header_Set : string → string → wi_state → wi_state;
  wi_Write : string → wi_state → wi_state;
  wi_sent : wi_state → option (Z * gmap string (list string));
}.

(** The writer above, which sends status and header at [WriteHeader]. *)
Definition contractWriter : WriterImpl := {|
  wi_state := ResponseWriter;
  wi_WriteHeader := rw_WriteHeader;
  wi_Header_Set := rw_Header_Set;
  wi_Write := rw_Write;
  wi_sent := sent;
|}.

(** A writer that defers, as the response writer of the gin router does,
    through which [main] mounts the handler ([gin.WrapH]): [WriteHeader]
    only stores a positive status, and the first [Write] sends the stored
    status (200 if none) with the header map as it stands then. *)
Record DeferredWriter := {
  d_header : gmap string (list string);
  d_status : Z;
  d_sent : option (Z * gmap string (list string));
  d_written : string;
}.

Definition d_WriteHeader (code : Z) (d : DeferredWriter) : DeferredWriter :=
  if (0 <? code)%Z && negb (code =? d_status d)%Z then
    {| d_header := d_header d; d_status := code;
       d_sent := d_sent d; d_written := d_written d |}
  else d.

Definition d_Header_Set (key value : string) (d : DeferredWriter) : DeferredWriter :=
  {| d_header := <[key := [value]]> (d_header d); d_status := d_status d;
     d_sent := d_sent d; d_written := d_written d |}.

Definition d_Write (data : string) (d : DeferredWriter) : DeferredWriter :=
  {| d_header := d_header d; d_status := d_status d;
     d_sent := match d_sent d with
               | Some out => Some out
               | None => Some (d_status d, d_header d)
               end;
     d_written := d_written d +:+ data |}.

Definition newDeferredWriter : DeferredWriter :=
  {| d_header := ∅; d_status := 200; d_sent := None; d_written := "" |}.

Definition deferringWriter : WriterImpl := {|
  wi_state := DeferredWriter;
  wi_WriteHeader := d_WriteHeader;
  wi_Header_Set := d_Header_Set;
  wi_Write := d_Write;
  wi_sent := d_sent;
|}.

(** The calls of a trace that go to the response writer directly
    ([w.WriteHeader], [w.Header().Set], [fmt.Fprint]), made on a writer of
    any implementation. What a codec writes is the codec's business and is
    skipped. *)
Fixpoint replay {V : Type} (impl : WriterImpl) (events : list (Event V))
    (w : wi_state impl) : wi_state impl :=
  match events with
  | [] => w
  | EvWriteHeader status :: rest => replay impl rest (wi_WriteHeader impl status w)
  | EvHeaderSet key value :: rest => replay impl rest (wi_Header_Set impl key value w)
  | EvFprint msg :: rest => replay impl rest (wi_Write impl msg w)
  | _ :: rest => replay impl rest w
  end.

(** How a statement ends: it falls through with a value, executes [return],
    or panics (a method call on a nil interface value). *)
Inductive Flow (A : Type) :=
| Next (a : A)
| Returned
| Panicked.
Arguments Next {A} a.
Arguments Returned {A}.
Arguments Panicked {A}.

Section Model.
Context `{GoEnv}.

(** [err.Error()]. *)
Definition Error (e : error) : string :=
  match e with
  | RegistrationError => registrationText
  | NotFoundError name => notFoundText name
  | ErrorString msg => msg
  end.

(** The fields of [*http.Request] the dispatcher reads. *)
Record Request := {
  req_Method : string;
  req_Header : gmap string (list string);
  req_URL_Path : string;
  req_Body : Body;
}.

(** ** The codec contract *)

(** Modelled from the spec: the [CodecRequest] interface, whose declaration
    is not part of the sources; one field per operation of the codec
    contract. [cr_ReadRequest] takes the value behind the pointer it is
    handed and returns that value as decoding leaves it; the two writers
    act on the response writer. *)
Record CodecRequest := {
  cr_Error : option error;
  cr_Method : string * option error;
  cr_ReadRequest : Value → Value * option error;
  cr_WriteResponse : ResponseWriter → Value → ResponseWriter;
  cr_WriteError : ResponseWriter → Z → error → ResponseWriter;
}.

(** Modelled from the spec: the [Codec] interface, [Codec.NewRequest]. A
    [Codec] is a codec object; the nil interface value is [None] of
    [option Codec]. *)
Record Codec := {
  NewRequest : Request → CodecRequest;
}.

(** ** The method registry *)

(** [reflect.Method]: the name and the function, called with the receiver,
    the request, the argument pointer and the reply pointer. The function
    returns the receiver and the reply as the call leaves them, and the
    method's [error] result. *)
Record Method := {
  Name : string;
  Func : Rcvr → Request → Value → Value → Rcvr * Value * option error;
}.

Record MethodSpec := {
  method : Method;
  argsType : GoType;
  replyType : GoType;
}.

(** Modelled from the spec: the [RpcService] struct, whose declaration is not
    part of the sources: the receiver ([rcvr], which [ServeHTTP] reads) and
    the mapping from method name to [MethodSpec]. *)
Record RpcService := {
  rcvr : Rcvr;
  methods : gmap string MethodSpec;
}.

(** Modelled from the spec: [RpcService.Get], which is not part of the
    sources: exact-match lookup, failing with NotFoundError. *)
Definition Get (svc : RpcService) (name : string) : MethodSpec + error :=
  match methods svc !! name with
  | Some spec => inl spec
  | None => inr (NotFoundError name)
  end.

(** What reflection shows of a parameter or result type of a candidate
    method: the context object [*http.Request], a pointer to a type that is
    externally visible or not, [error], or anything else. *)
Inductive Shape :=
| ShRequest
| ShPointer (visible : bool) (t : GoType)
| ShError
| ShOther.

(** A method of the receiver as reflection shows it. *)
Record Candidate := {
  cand_method : Method;
  cand_exported : bool;
  cand_params : list Shape;
  cand_results : list Shape;
}.

Record Receiver := {
  recv_value : Rcvr;
  recv_visible : bool;
  recv_methods : list Candidate;
}.

(** Modelled from the spec: the eligibility test of the registry build,
    which is not part of the sources. A method qualifies iff its shape is
    exactly (context object, pointer to argument type, pointer to reply
    type) → error and the method name, the receiver type and both payload
    types are externally visible. *)
Definition eligible (recv : Receiver) (c : Candidate) : option MethodSpec :=
  if recv_visible recv && cand_exported c then
    match cand_params c, cand_results c with
    | [ShRequest; ShPointer true a; ShPointer true r], [ShError] =>
        Some {| method := cand_method c; argsType := a; replyType := r |}
    | _, _ => None
    end
  else None.

(** Modelled from the spec: [NewRpcService], which is not part of the
    sources. Methods that do not qualify are skipped; each one that
    qualifies is recorded under its own name; the build fails with
    RegistrationError if none qualifies. *)
Definition NewRpcService (recv : Receiver) : RpcService + error :=
  let specs := omap (eligible recv) (recv_methods recv) in
  match specs with
  | [] => inr RegistrationError
  | _ => inl {| rcvr := recv_value recv;
                methods := list_to_map (map (λ spec, (Name (method spec), spec)) specs) |}
  end.

(** ** The server *)

Record Server := {
  codecs : gmap string Codec;
  service : RpcService;
}.

(** [NewServer]: Go's result pair, [None] for nil. *)
Definition NewServer (receiver : Receiver) : option Server * option error :=
  match NewRpcService receiver with
  | inr err => (None, Some err)
  | inl service => (Some {| codecs := ∅; service := service |}, None)
  end.

Definition RegisterCodec (s : Server) (codec : Codec) (contentType : string) : Server :=
  {| codecs := <[ToLower contentType := codec]> (codecs s); service := service s |}.

Definition HasMethod (s : Server) (method : string) : bool :=
  match Get (service s) method with
  | inl _ => true
  | inr _ => false
  end.

(** ** The handler's effects *)

(** What the handler can change: the server it was called on (with the
    receiver behind [s.service.rcvr]) and the response writer. *)
Record State := {
  srv : Server;
  rw : ResponseWriter;
}.

Definition M (A : Type) : Type := State → Flow A * State * list (Event Value).

#[local] Instance M_ret : MRet M := λ A a st, (Next a, st, []).

#[local] Instance M_bind : MBind M := λ A B f m st,
  match m st with
  | (Next a, st1, ev1) =>
      match f a st1 with
      | (fl, st2, ev2) => (fl, st2, (ev1 ++ ev2)%list)
      end
  | (Returned, st1, ev1) => (Returned, st1, ev1)
  | (Panicked, st1, ev1) => (Panicked, st1, ev1)
  end.

Definition return_ {A} : M A := λ st, (Returned, st, []).
Definition panic {A} : M A := λ st, (Panicked, st, []).
Definition emit (e : Event Value) : M unit := λ st, (Next tt, st, [e]).
Definition getServer : M Server := λ st, (Next (srv st), st, []).
Definition getWriter : M ResponseWriter := λ st, (Next (rw st), st, []).
Definition putWriter (w : ResponseWriter) : M unit :=
  λ st, (Next tt, {| srv := srv st; rw := w |}, []).
(** The server once a method has left the receiver as [v]. *)
Definition setRcvr (s : Server) (v : Rcvr) : Server :=
  {| codecs := codecs s; service := {| rcvr := v; methods := methods (service s) |} |}.

Definition putRcvr (v : Rcvr) : M unit :=
  λ st, (Next tt, {| srv := setRcvr (srv st) v; rw := rw st |}, []).

(** A function body: its [return] ends the body, not the caller. *)
Definition func (body : M unit) : M unit := λ st,
  match body st with
  | (Returned, st1, ev1) => (Next tt, st1, ev1)
  | res => res
  end.

(** The calls, each recorded in the trace. *)
Definition w_WriteHeader (status : Z) : M unit :=
  emit (EvWriteHeader status) ;; w ← getWriter; putWriter (rw_WriteHeader status w).

Definition w_Header_Set (key value : string) : M unit :=
  emit (EvHeaderSet key value) ;; w ← getWriter; putWriter (rw_Header_Set key value w).

Definition fmt_Fprint (msg : string) : M unit :=
  emit (EvFprint msg) ;; w ← getWriter; putWriter (rw_Write msg w).

Definition service_Get (name : string) : M (MethodSpec + error) :=
  emit (EvGet name) ;; s ← getServer; mret (Get (service s) name).

Definition codec_NewRequest (codec : option Codec) (r : Request) : M CodecRequest :=
  match codec with
  | None => panic
  | Some c => emit EvNewRequest ;; mret (NewRequest c r)
  end.

Definition codecReq_Error (codecReq : CodecRequest) : M (option error) :=
  emit EvError ;; mret (cr_Error codecReq).

Definition codecReq_Method (codecReq : CodecRequest) : M (string * option error) :=
  emit EvMethod ;; mret (cr_Method codecReq).

Definition codecReq_ReadRequest (codecReq : CodecRequest) (args : Value)
  : M (Value * option error) :=
  emit (EvReadRequest args) ;; mret (cr_ReadRequest codecReq args).

Definition codecReq_WriteResponse (codecReq : CodecRequest) (reply : Value) : M unit :=
  emit (EvWriteResponse reply) ;; w ← getWriter; putWriter (cr_WriteResponse codecReq w reply).

Definition codecReq_WriteError (codecReq : CodecRequest) (status : Z) (err : error) : M unit :=
  emit (EvCodecWriteError status err) ;;
  w ← getWriter; putWriter (cr_WriteError codecReq w status err).

Definition Func_Call (spec : MethodSpec) (r : Request) (args reply : Value)
  : M (Value * option error) :=
  emit (EvCall (Name (method spec)) args reply) ;;
  s ← getServer;
  let '(rcvr1, reply1, errValue) := Func (method spec) (rcvr (service s)) r args reply in
  putRcvr rcvr1 ;; mret (reply1, errValue).

(** ** The handler *)

(** Modelled from the spec: [LastPart], which is not part of the sources:
    the final segment of a URL path, that is what follows its last ["/"]
    (the whole path when it has none). [seg] is the segment read so far. *)
Fixpoint lastPartFrom (seg path : string) : string :=
  match path with
  | EmptyString => seg
  | String c rest =>
      if Ascii.eqb c "/" then lastPartFrom EmptyString rest
      else lastPartFrom (seg +:+ String c EmptyString) rest
  end.

Definition LastPart (path : string) : string := lastPartFrom EmptyString path.

(** [WriteError], server.go lines 151-155. *)
Definition WriteError (status : Z) (msg : string) : M unit :=
  w_WriteHeader status ;;
  w_Header_Set "Content-Type" "text/plain; charset=utf-8" ;;
  fmt_Fprint msg.

(** Lines 78-82: the Content-Type header up to its first [";"]. *)
Definition contentTypeOf (r : Request) : string :=
  let contentType := Header_Get (req_Header r) "Content-Type" in
  let idx := strings_Index contentType ";" in
  if bool_decide (idx ≠ -1) then slice_to contentType idx else contentType.

(** Line 84: the condition of the sole-codec default. *)
Definition soleDefault (s : Server) (contentType : string) : bool :=
  bool_decide (contentType = "") && bool_decide (size (codecs s) = 1%nat).

(** Lines 87-89: [for _, c := range s.codecs { codec = c }], from nil. *)
Definition rangeCodecs (m : gmap string Codec) : option Codec :=
  foldl (λ _ kc, Some kc.2) None (map_to_list m).

(** Lines 83-90: the variable [codec] after the [if] / [else if]. *)
Definition selectCodec (s : Server) (contentType : string) : option Codec :=
  if soleDefault s contentType then rangeCodecs (codecs s)
  else codecs s !! ToLower contentType.

(** [ServeHTTP], lines 95-148: what the handler does once the variable
    [codec] is set. *)
Definition dispatch (codec : option Codec) (r : Request) : M unit :=
  let pathMethod := LastPart (req_URL_Path r) in
  got ← service_Get pathMethod;
  (match got with
   | inr errGet => WriteError 404 (Error errGet) ;; return_
   | inl _ => mret tt
   end) ;;
  (* Create a new codec request. *)
  codecReq ← codec_NewRequest codec r;
  err ← codecReq_Error codecReq;
  (match err with
   | Some e =>
       (* the argument [codecReq.Error()]: a second call, answered as the first *)
       codecReq_Error codecReq ;;
       codecReq_WriteError codecReq 400 e ;; return_
   | None => mret tt
   end) ;;
  (* Get service method to be called. *)
  '(methodName, errMethod) ← codecReq_Method codecReq;
  (match errMethod with
   | Some e => codecReq_WriteError codecReq 400 e ;; return_
   | None => mret tt
   end) ;;
  got ← service_Get methodName;
  match got with
  | inr errGet => codecReq_WriteError codecReq 400 errGet ;; return_
  | inl methodSpec =>
      (* Decode the args. *)
      let args := New (argsType methodSpec) in
      '(args, errRead) ← codecReq_ReadRequest codecReq args;
      (match errRead with
       | Some e => codecReq_WriteError codecReq 400 e ;; return_
       | None => mret tt
       end) ;;
      (* Call the service method. *)
      let reply := New (replyType methodSpec) in
      '(reply, errResult) ← Func_Call methodSpec r args reply;
      (* Encode the response. *)
      match errResult with
      | None => codecReq_WriteResponse codecReq reply
      | Some e => codecReq_WriteError codecReq 400 e
      end
  end.

(** [ServeHTTP], server.go lines 73-149. *)
Definition ServeHTTP (r : Request) : M unit := func (
  (if bool_decide (req_Method r ≠ "POST") then
     WriteError 405 ("rpc: POST method required, received " +:+ req_Method r) ;;
     return_
   else mret tt) ;;
  let contentType := contentTypeOf r in
  s ← getServer;
  let codec := selectCodec s contentType in
  (if soleDefault s contentType then mret tt
   else match codec with
        | None =>
            WriteError 415 ("rpc: unrecognized Content-Type: " +:+ contentType) ;;
            return_
        | Some _ => mret tt
        end) ;;
  dispatch codec r).

(** The handler run on server [s] with response writer [w]. *)
Definition serve (s : Server) (w : ResponseWriter) (r : Request)
  : Flow unit * State * list (Event Value) :=
  ServeHTTP r {| srv := s; rw := w |}.

(** ** The codec selection as the specification words it *)

(** Strip any parameter suffix after the first [";"]. *)
Fixpoint stripParams (s : string) : string :=
  match s with
  | EmptyString => EmptyString
  | String c rest => if Ascii.eqb c ";" then EmptyString else String c (stripParams rest)
  end.

(** Select: if the stripped string is empty and exactly one codec is
    registered, that codec; otherwise the codec registered under the
    lower-cased string; failure ([None]) if absent. *)
Definition spec_Select (registered : gmap string Codec) (contentTypeHeader : string)
  : option Codec :=
  match stripParams contentTypeHeader, map_to_list registered with
  | EmptyString, [(_, codec)] => Some codec
  | stripped, _ => registered !! ToLower stripped
  end.

(** The plain-text error response: what the three calls of [WriteError]
    leave in the response writer, and the calls themselves. *)
Definition plainError (status : Z) (msg : string) (w : ResponseWriter) : ResponseWriter :=
  rw_Write msg (rw_Header_Set "Content-Type" "text/plain; charset=utf-8"
                  (rw_WriteHeader status w)).

Definition plainEvents (status : Z) (msg : string) : list (Event Value) :=
  [EvWriteHeader status;
   EvHeaderSet "Content-Type" "text/plain; charset=utf-8";
   EvFprint msg].

(** Events that write a response, and events that touch the codec, the
    registry or the service. *)
Definition isPlainWrite (e : Event Value) : bool :=
  match e with
  | EvWriteHeader _ | EvHeaderSet _ _ | EvFprint _ => true
  | _ => false
  end.

Definition isCodecWrite (e : Event Value) : bool :=
  match e with
  | EvWriteResponse _ | EvCodecWriteError _ _ => true
  | _ => false
  end.

Definition isCall (e : Event Value) : bool :=
  match e with
  | EvCall _ _ _ => true
  | _ => false
  end.

Definition isCodecCall (e : Event Value) : bool :=
  match e with
  | EvNewRequest | EvError | EvMethod | EvReadRequest _
  | EvWriteResponse _ | EvCodecWriteError _ _ => true
  | _ => false
  end.

(** A method that leaves the receiver as it found it. *)
Definition keepsReceiver (spec : MethodSpec) : Prop :=
  ∀ v r args reply, (Func (method spec) v r args reply).1.1 = v.

(** The same request with another body. *)
Definition withBody (r : Request) (body : Body) : Request :=
  {| req_Method := req_Method r; req_Header := req_Header r;
     req_URL_Path := req_URL_Path r; req_Body := body |}.

(** Creations of a codec request, decodings, and registry lookups. *)
Definition isNewRequest (e : Event Value) : bool :=
  match e with
  | EvNewRequest => true
  | _ => false
  end.

Definition isReadRequest (e : Event Value) : bool :=
  match e with
  | EvReadRequest _ => true
  | _ => false
  end.

Definition isGet (e : Event Value) : bool :=
  match e with
  | EvGet _ => true
  | _ => false
  end.

End Model.

(** ** The example arithmetic service, jsonrpc-sample/main.go *)

Module Sample.

(** Go's [int], at 64 bits: the range and the wrap-around of its arithmetic. *)
Definition is_int (z : Z) : Prop := - 2 ^ 63 <= z < 2 ^ 63.

Definition wrap (z : Z) : Z := (z + 2 ^ 63) mod 2 ^ 64 - 2 ^ 63.

Record Args := { A : Z; B : Z }.

Record Quotient := { Quo : Z; Rem : Z }.

(** [Multiply]: the reply pointer is passed as the value behind it and
    returned as the method leaves it. Go's [*] wraps. *)
Definition Multiply (args : Args) (reply : Z) : Z * option error :=
  let reply := wrap (A args * B args) in
  (reply, None).

(** [Divide]: Go's [/] truncates toward zero and [%] takes the sign of the
    dividend ([Z.quot], [Z.rem]); both wrap. *)
Definition Divide (args : Args) (quo : Quotient) : Quotient * option error :=
  if (B args =? 0)%Z then (quo, Some (ErrorString "divide by zero"))
  else
    let quo := {| Quo := wrap (Z.quot (A args) (B args)); Rem := Rem quo |} in
    let quo := {| Quo := Quo quo; Rem := wrap (Z.rem (A args) (B args)) |} in
    (quo, None).

(** The types and values reflection handles for this service. *)
Inductive ty := TInt | TArgs | TQuotient.

Inductive val :=
| VInt (n : Z)
| VArgs (a : Args)
| VQuotient (q : Quotient).

Definition zero (t : ty) : val :=
  match t with
  | TInt => VInt 0
  | TArgs => VArgs {| A := 0; B := 0 |}
  | TQuotient => VQuotient {| Quo := 0; Rem := 0 |}
  end.

(** A request body as a test codec reads it: what each operation of the
    codec request is to answer. *)
Record script := {
  s_error : option error;
  s_method : string * option error;
  s_args : val * option error;
}.

#[export] Instance env : GoEnv := {|
  Body := script;
  GoType := ty;
  Value := val;
  Rcvr := Z;
  New := zero;
  ToLower := lower_string;
  registrationText := "rpc: no eligible methods";
  notFoundText := λ name, "rpc: can't find method " +:+ name;
|}.

(** The two methods as reflection calls them. *)
Definition MultiplyFunc (t : Z) (r : Request) (args reply : val)
  : Z * val * option error :=
  match args, reply with
  | VArgs a, VInt n => let '(n, e) := Multiply a n in (t, VInt n, e)
  | _, _ => (t, reply, Some (ErrorString "reflect: type mismatch"))
  end.

Definition DivideFunc (t : Z) (r : Request) (args reply : val)
  : Z * val * option error :=
  match args, reply with
  | VArgs a, VQuotient q => let '(q, e) := Divide a q in (t, VQuotient q, e)
  | _, _ => (t, reply, Some (ErrorString "reflect: type mismatch"))
  end.

Definition arith : Receiver := {|
  recv_value := 0;
  recv_visible := true;
  recv_methods :=
    [ {| cand_method := {| Name := "Multiply"; Func := MultiplyFunc |};
         cand_exported := true;
         cand_params := [ShRequest; ShPointer true TArgs; ShPointer true TInt];
         cand_results := [ShError] |};
      {| cand_method := {| Name := "Divide"; Func := DivideFunc |};
         cand_exported := true;
         cand_params := [ShRequest; ShPointer true TArgs; ShPointer true TQuotient];
         cand_results := [ShError] |} ];
|}.

(** A receiver none of whose methods qualifies. *)
Definition noMethods : Receiver := {|
  recv_value := 0;
  recv_visible := true;
  recv_methods :=
    [ {| cand_method := {| Name := "helper"; Func := MultiplyFunc |};
         cand_exported := false;
         cand_params := [ShRequest; ShPointer true TArgs; ShPointer true TInt];
         cand_results := [ShError] |};
      {| cand_method := {| Name := "Sum"; Func := MultiplyFunc |};
         cand_exported := true;
         cand_params := [ShPointer true TArgs; ShPointer true TInt];
         cand_results := [ShError] |} ];
|}.

(** The test codec: it answers from the script and writes values and
    errors as text. *)
Definition render (v : val) : string :=
  match v with
  | VInt n => "int"
  | VArgs _ => "args"
  | VQuotient _ => "quotient"
  end.

Definition scriptCodec : Codec := {|
  NewRequest := λ r, {|
    cr_Error := s_error (req_Body r);
    cr_Method := s_method (req_Body r);
    cr_ReadRequest := λ _, s_args (req_Body r);
    cr_WriteResponse := λ w v, rw_Write (render v) (rw_WriteHeader 200 w);
    cr_WriteError := λ w status e, rw_Write (Error e) (rw_WriteHeader status w);
  |}
|}.

(** [anotherServer] of [main]: the service with one codec registered. *)
Definition anotherServer : Server :=
  match NewServer arith with
  | (Some s, _) => RegisterCodec s scriptCodec "application/json"
  | (None, _) => {| codecs := ∅; service := {| rcvr := 0; methods := ∅ |} |}
  end.

(** A server without any codec, and one with two. *)
Definition bareServer : Server :=
  {| codecs := ∅; service := service anotherServer |}.

Definition twoCodecs : Server :=
  RegisterCodec anotherServer scriptCodec "text/xml".

(** Two codecs, one of them registered under the empty content type. *)
Definition emptyTypeServer : Server :=
  RegisterCodec (RegisterCodec bareServer scriptCodec "") scriptCodec "text/xml".

Definition call (name : string) (a b : Z) : script := {|
  s_error := None;
  s_method := (name, None);
  s_args := (VArgs {| A := a; B := b |}, None);
|}.

Definition post (contentType path : string) (body : script) : Request := {|
  req_Method := "POST";
  req_Header := {[ "Content-Type" := [contentType] ]};
  req_URL_Path := path;
  req_Body := body;
|}.

(** A body whose envelope does not parse. *)
Definition garbled : script := {|
  s_error := Some (ErrorString "parse error");
  s_method := ("", None);
  s_args := (VInt 0, None);
|}.

(** The registry entries of the two methods. *)
Definition multiplySpec : MethodSpec :=
  {| method := {| Name := "Multiply"; Func := MultiplyFunc |};
     argsType := TArgs; replyType := TInt |}.

Definition divideSpec : MethodSpec :=
  {| method := {| Name := "Divide"; Func := DivideFunc |};
     argsType := TArgs; replyType := TQuotient |}.

Definition get (path : string) (body : script) : Request := {|
  req_Method := "GET";
  req_Header := ∅;
  req_URL_Path := path;
  req_Body := body;
|}.

(** The status that was sent, if any. *)
Definition status (w : ResponseWriter) : option Z := fst <$> sent w.

(** A POST without a Content-Type header. *)
Definition postBare (path : string) (body : script) : Request := {|
  req_Method := "POST";
  req_Header := ∅;
  req_URL_Path := path;
  req_Body := body;
|}.

End Sample.

(** * Properties *)

(** ** Strings and maps *)

Lemma prefix_empty (s : string) : String.prefix EmptyString s = true.
Proof. destruct s; reflexivity. Qed.

(** Cutting at the index of the first [";"] is stripping the parameters. *)
Lemma index_semicolon (s : string) :
  match String.index 0 ";" s with
  | Some n => String.substring 0 n s
  | None => s
  end = stripParams s.
Proof.
  induction s as [|c rest IH]; [reflexivity|].
  cbn [String.index stripParams String.prefix].
  destruct (ascii_dec ";" c) as [<-|Hne].
  - rewrite prefix_empty. reflexivity.
  - destruct (Ascii.eqb_spec c ";") as [->|_]; [congruence|].
    destruct (String.index 0 ";" rest) as [n|]; cbn [String.substring]; congruence.
Qed.

Lemma slice_at_semicolon (s : string) :
  (if bool_decide (strings_Index s ";" ≠ -1) then slice_to s (strings_Index s ";") else s)
  = stripParams s.
Proof.
  unfold strings_Index, slice_to. rewrite <- (index_semicolon s).
  destruct (String.index 0 ";" s) as [n|].
  - rewrite bool_decide_eq_true_2 by lia. by rewrite Nat2Z.id.
  - rewrite bool_decide_eq_false_2; [done|]. intros Hne. by apply Hne.
Qed.

(** A map of size one lists as its only entry. *)
Lemma size_one_list {A} (m : gmap string A) :
  size m = 1%nat ↔ ∃ k a, map_to_list m = [(k, a)].
Proof.
  rewrite <- length_map_to_list. split.
  - destruct (map_to_list m) as [|[k a] [|? ?]]; cbn; try lia. eauto.
  - intros (k & a & ->). reflexivity.
Qed.

Section Properties.
Context `{GoEnv}.

(** ** Codec selection *)

Lemma contentTypeOf_strip (r : Request) :
  contentTypeOf r = stripParams (Header_Get (req_Header r) "Content-Type").
Proof. unfold contentTypeOf. cbv zeta. apply slice_at_semicolon. Qed.

(** Where the sole-codec default applies, the loop finds the codec. *)
Lemma soleDefault_selects (s : Server) (contentType : string) :
  soleDefault s contentType = true →
  ∃ k codec, contentType = "" ∧ map_to_list (codecs s) = [(k, codec)] ∧
             selectCodec s contentType = Some codec.
Proof.
  intros Hsole. unfold selectCodec. rewrite Hsole. unfold soleDefault in Hsole.
  apply andb_true_iff in Hsole as [Hempty Hsize].
  apply bool_decide_eq_true in Hempty, Hsize.
  apply size_one_list in Hsize as (k & codec & Hlist).
  exists k, codec. unfold rangeCodecs. rewrite Hlist. done.
Qed.

(** The variable [codec] holds what the specification's Select returns. *)
Lemma selectCodec_Select (s : Server) (contentTypeHeader : string) :
  selectCodec s (stripParams contentTypeHeader) = spec_Select (codecs s) contentTypeHeader.
Proof.
  unfold spec_Select.
  destruct (soleDefault s (stripParams contentTypeHeader)) eqn:Hsole.
  - destruct (soleDefault_selects _ _ Hsole) as (k & codec & -> & -> & ->). done.
  - unfold selectCodec. rewrite Hsole. unfold soleDefault in Hsole.
    apply andb_false_iff in Hsole as [Hne|Hsize].
    + apply bool_decide_eq_false in Hne.
      destruct (stripParams contentTypeHeader); [done|].
      by destruct (map_to_list (codecs s)) as [|[] [|]].
    + apply bool_decide_eq_false in Hsize.
      destruct (stripParams contentTypeHeader); [|by destruct (map_to_list (codecs s)) as [|[] [|]]].
      destruct (map_to_list (codecs s)) as [|[k a] [|? ?]] eqn:Hlist; try done.
      exfalso. apply Hsize, size_one_list. eauto.
Qed.

(** ** The runs of the handler, path by path *)

Lemma WriteError_run (status : Z) (msg : string) (st : State) :
  WriteError status msg st
  = (Next tt, {| srv := srv st; rw := plainError status msg (rw st) |},
     plainEvents status msg).
Proof. reflexivity. Qed.

Lemma serve_not_POST (s : Server) (w : ResponseWriter) (r : Request) :
  req_Method r ≠ "POST" →
  let msg := "rpc: POST method required, received " +:+ req_Method r in
  serve s w r = (Next tt, {| srv := s; rw := plainError 405 msg w |}, plainEvents 405 msg).
Proof.
  intros Hm. unfold serve, ServeHTTP, func, mbind, M_bind.
  rewrite bool_decide_eq_true_2 by done. reflexivity.
Qed.

Lemma serve_unrecognized (s : Server) (w : ResponseWriter) (r : Request) :
  req_Method r = "POST" →
  selectCodec s (contentTypeOf r) = None →
  let msg := "rpc: unrecognized Content-Type: " +:+ contentTypeOf r in
  serve s w r = (Next tt, {| srv := s; rw := plainError 415 msg w |}, plainEvents 415 msg).
Proof.
  intros Hm Hsel. unfold serve, ServeHTTP, func, mbind, M_bind.
  rewrite bool_decide_eq_false_2 by (intros Hne; by apply Hne).
  cbn. rewrite Hsel.
  destruct (soleDefault s (contentTypeOf r)) eqn:Hsole; [|reflexivity].
  destruct (soleDefault_selects _ _ Hsole) as (? & ? & _ & _ & Hsome). congruence.
Qed.

Lemma serve_selected (s : Server) (w : ResponseWriter) (r : Request) (codec : Codec) :
  req_Method r = "POST" →
  selectCodec s (contentTypeOf r) = Some codec →
  serve s w r = func (dispatch (Some codec) r) {| srv := s; rw := w |}.
Proof.
  intros Hm Hsel. unfold serve, ServeHTTP, func, mbind, M_bind.
  rewrite bool_decide_eq_false_2 by (intros Hne; by apply Hne).
  cbn. rewrite Hsel.
  destruct (soleDefault s (contentTypeOf r));
    cbn; by destruct (dispatch (Some codec) r _) as [[[] ?] ?].
Qed.

Section Dispatched.
Variables (s : Server) (w : ResponseWriter) (r : Request) (codec : Codec).
Hypothesis HPOST : req_Method r = "POST".
Hypothesis Hsel : selectCodec s (contentTypeOf r) = Some codec.

Local Abbreviation codecReq := (NewRequest codec r).
Local Abbreviation path := (LastPart (req_URL_Path r)).

Local Ltac run_dispatch :=
  rewrite (serve_selected s w r codec HPOST Hsel);
  unfold func, dispatch, WriteError, w_WriteHeader, w_Header_Set, fmt_Fprint,
    service_Get, codec_NewRequest, codecReq_Error, codecReq_Method,
    codecReq_ReadRequest, codecReq_WriteResponse, codecReq_WriteError, Func_Call,
    emit, getServer, getWriter, putWriter, putRcvr, return_, panic,
    mbind, M_bind, mret, M_ret;
  cbn -[Get LastPart rw_Write rw_WriteHeader rw_Header_Set].

Lemma serve_path_not_found (errGet : error) :
  Get (service s) path = inr errGet →
  serve s w r
  = (Next tt, {| srv := s; rw := plainError 404 (Error errGet) w |},
     EvGet path :: plainEvents 404 (Error errGet)).
Proof. intros Hget. run_dispatch. rewrite Hget. reflexivity. Qed.

Section Registered.
Variable pathSpec : MethodSpec.
Hypothesis Hpath : Get (service s) path = inl pathSpec.

Lemma serve_envelope_error (e : error) :
  cr_Error codecReq = Some e →
  serve s w r
  = (Next tt, {| srv := s; rw := cr_WriteError codecReq w 400 e |},
     [EvGet path; EvNewRequest; EvError; EvError; EvCodecWriteError 400 e]).
Proof. intros He. run_dispatch. rewrite Hpath. cbn. rewrite He. reflexivity. Qed.

Lemma serve_method_error (name : string) (e : error) :
  cr_Error codecReq = None →
  cr_Method codecReq = (name, Some e) →
  serve s w r
  = (Next tt, {| srv := s; rw := cr_WriteError codecReq w 400 e |},
     [EvGet path; EvNewRequest; EvError; EvMethod; EvCodecWriteError 400 e]).
Proof.
  intros He Hm. run_dispatch. rewrite Hpath. cbn. rewrite He. cbn. rewrite Hm.
  reflexivity.
Qed.

Lemma serve_unknown_method (name : string) (e : error) :
  cr_Error codecReq = None →
  cr_Method codecReq = (name, None) →
  Get (service s) name = inr e →
  serve s w r
  = (Next tt, {| srv := s; rw := cr_WriteError codecReq w 400 e |},
     [EvGet path; EvNewRequest; EvError; EvMethod; EvGet name; EvCodecWriteError 400 e]).
Proof.
  intros He Hm Hget. run_dispatch. rewrite Hpath. cbn. rewrite He. cbn. rewrite Hm.
  cbn. rewrite Hget. reflexivity.
Qed.

Lemma serve_decode_error (name : string) (spec : MethodSpec) (args : Value) (e : error) :
  cr_Error codecReq = None →
  cr_Method codecReq = (name, None) →
  Get (service s) name = inl spec →
  cr_ReadRequest codecReq (New (argsType spec)) = (args, Some e) →
  serve s w r
  = (Next tt, {| srv := s; rw := cr_WriteError codecReq w 400 e |},
     [EvGet path; EvNewRequest; EvError; EvMethod; EvGet name;
      EvReadRequest (New (argsType spec)); EvCodecWriteError 400 e]).
Proof.
  intros He Hm Hget Hread. run_dispatch. rewrite Hpath. cbn. rewrite He. cbn.
  rewrite Hm. cbn. rewrite Hget. cbn. rewrite Hread. reflexivity.
Qed.

Lemma serve_invoked (name : string) (spec : MethodSpec) (args : Value) :
  cr_Error codecReq = None →
  cr_Method codecReq = (name, None) →
  Get (service s) name = inl spec →
  cr_ReadRequest codecReq (New (argsType spec)) = (args, None) →
  serve s w r
  = match Func (method spec) (rcvr (service s)) r args (New (replyType spec)) with
    | (rcvr1, reply1, errResult) =>
        (Next tt,
         {| srv := setRcvr s rcvr1;
            rw := match errResult with
                  | None => cr_WriteResponse codecReq w reply1
                  | Some e => cr_WriteError codecReq w 400 e
                  end |},
         [EvGet path; EvNewRequest; EvError; EvMethod; EvGet name;
          EvReadRequest (New (argsType spec));
          EvCall (Name (method spec)) args (New (replyType spec));
          match errResult with
          | None => EvWriteResponse reply1
          | Some e => EvCodecWriteError 400 e
          end])
    end.
Proof.
  intros He Hm Hget Hread. run_dispatch. rewrite Hpath. cbn. rewrite He. cbn.
  rewrite Hm. cbn. rewrite Hget. cbn. rewrite Hread. cbn.
  destruct (Func (method spec) (rcvr (service s)) r args (New (replyType spec)))
    as [[rcvr1 reply1] [e|]]; reflexivity.
Qed.

End Registered.
End Dispatched.

(** Every run of the handler is one of the runs above. *)
Ltac serve_paths s w r :=
  let HPOST := fresh "HPOST" in
  let Hsel := fresh "Hsel" in
  let Hpath := fresh "Hpath" in
  let He := fresh "He" in
  let Hm := fresh "Hm" in
  let Hget := fresh "Hget" in
  let Hread := fresh "Hread" in
  let Hcall := fresh "Hcall" in
  let c := fresh "codec" in
  let name := fresh "name" in
  let spec := fresh "spec" in
  let args := fresh "args" in
  destruct (decide (req_Method r = "POST")) as [HPOST|HPOST];
  [ destruct (selectCodec s (contentTypeOf r)) as [c|] eqn:Hsel;
    [ destruct (Get (service s) (LastPart (req_URL_Path r)))
        as [?pathSpec|?errGet] eqn:Hpath;
      [ destruct (cr_Error (NewRequest c r)) as [?e|] eqn:He;
        [ rewrite (serve_envelope_error s w r c HPOST Hsel _ Hpath _ He)
        | destruct (cr_Method (NewRequest c r)) as [name [?e|]] eqn:Hm;
          [ rewrite (serve_method_error s w r c HPOST Hsel _ Hpath _ _ He Hm)
          | destruct (Get (service s) name) as [spec|?e] eqn:Hget;
            [ destruct (cr_ReadRequest (NewRequest c r) (New (argsType spec)))
                as [args [?e|]] eqn:Hread;
              [ rewrite (serve_decode_error s w r c HPOST Hsel _ Hpath
                           _ _ _ _ He Hm Hget Hread)
              | rewrite (serve_invoked s w r c HPOST Hsel _ Hpath
                           _ _ _ He Hm Hget Hread);
                destruct (Func (method spec) (rcvr (service s)) r args
                            (New (replyType spec)))
                  as [[?rcvr1 ?reply1] [?e|]] eqn:Hcall ]
            | rewrite (serve_unknown_method s w r c HPOST Hsel _ Hpath
                         _ _ He Hm Hget) ] ] ]
      | rewrite (serve_path_not_found s w r c HPOST Hsel _ Hpath) ]
    | rewrite (serve_unrecognized s w r HPOST Hsel) ]
  | rewrite (serve_not_POST s w r HPOST) ].

(** The handler leaves the codec map and the method registry alone, and it
    never panics. *)
Lemma serve_keeps_registries (s : Server) (w : ResponseWriter) (r : Request) :
  codecs (srv (serve s w r).1.2) = codecs s ∧
  methods (service (srv (serve s w r).1.2)) = methods (service s) ∧
  (serve s w r).1.1 = Next tt.
Proof. serve_paths s w r; done. Qed.

(** What the plain-text error response looks like. *)
Lemma plainError_sent (status : Z) (msg : string) (w : ResponseWriter) :
  sent w = None → sent (plainError status msg w) = Some (status, header w).
Proof. destruct w as [h [p|] b]; [discriminate|reflexivity]. Qed.

Lemma plainError_written (status : Z) (msg : string) (w : ResponseWriter) :
  written (plainError status msg w) = written w +:+ msg.
Proof. destruct w as [h [p|] b]; reflexivity. Qed.

Lemma plainError_header (status : Z) (msg : string) (w : ResponseWriter) :
  header (plainError status msg w) !! "Content-Type" = Some ["text/plain; charset=utf-8"].
Proof.
  destruct w as [h [p|] b];
    unfold plainError, rw_Write, rw_Header_Set, rw_WriteHeader; cbn [header sent];
    apply lookup_insert_eq.
Qed.

(** ** The claims about the dispatcher *)

(** C9. A request whose method is not POST is answered with status 405 and
    a plain-text body naming the received method, whatever its headers and
    body; the three calls of the plain-text writer are all the handler
    does: no codec is selected, no method is looked up, nothing is
    invoked. *)
Theorem non_POST_is_405 (s : Server) (w : ResponseWriter) (r : Request) :
  req_Method r ≠ "POST" →
  let msg := "rpc: POST method required, received " +:+ req_Method r in
  serve s w r = (Next tt, {| srv := s; rw := plainError 405 msg w |}, plainEvents 405 msg) ∧
  written (plainError 405 msg w) = written w +:+ msg ∧
  (sent w = None → sent (plainError 405 msg w) = Some (405, header w)).
Proof.
  intros Hm msg. split; [by apply serve_not_POST|].
  split; [apply plainError_written|apply plainError_sent].
Qed.

(** C10, as amended. [WriteError] calls [WriteHeader] with the status
    first, then sets the Content-Type header, then writes the message, and
    every 405, 415 and 404 of the handler is these three calls. Whether the
    header so set is sent depends on the writer. On a writer that sends
    status and header at [WriteHeader], the response goes out with the
    header map as it stood before: setting the header changes nothing of
    what is sent. On a writer that defers them to the first [Write], the
    response goes out with the Content-Type set. *)
Theorem WriteError_header_depends_on_writer (status : Z) (msg : string) (st : State) :
  WriteError status msg st
  = (Next tt, {| srv := srv st; rw := plainError status msg (rw st) |},
     [EvWriteHeader status;
      EvHeaderSet "Content-Type" "text/plain; charset=utf-8";
      EvFprint msg]) ∧
  (∀ w : ResponseWriter,
     sent w = None →
     replay (V:=Value) contractWriter (plainEvents status msg) w = plainError status msg w ∧
     sent (plainError status msg w) = Some (status, header w) ∧
     sent (plainError status msg w)
     = sent (replay (V:=Value) contractWriter [EvWriteHeader status; EvFprint msg] w)) ∧
  (∀ d : DeferredWriter,
     d_sent d = None → 0 < status →
     d_sent (replay (V:=Value) deferringWriter (plainEvents status msg) d)
     = Some (status, <["Content-Type" := ["text/plain; charset=utf-8"]]> (d_header d))) ∧
  (∀ (r : Request) (code : Z),
     EvWriteHeader code ∈ (serve (srv st) (rw st) r).2 →
     code ∈ [405; 415; 404] ∧
     ∃ text, ∀ (impl : WriterImpl) (w : wi_state impl),
       replay impl (serve (srv st) (rw st) r).2 w = replay impl (plainEvents code text) w).
Proof.
  split; [reflexivity|]. split; [|split].
  - intros w Hsent. split; [reflexivity|]. split; [by apply plainError_sent|].
    destruct w as [h [p|] b]; [discriminate|reflexivity].
  - intros d Hsent Hpos. cbn [replay plainEvents deferringWriter wi_WriteHeader
      wi_Header_Set wi_Write]. unfold d_Write, d_Header_Set, d_WriteHeader.
    apply Z.ltb_lt in Hpos as Hltb. rewrite Hltb. cbn [andb].
    destruct (status =? d_status d)%Z eqn:Heq; cbn [negb d_sent d_header d_status];
      rewrite Hsent; [|done].
    apply Z.eqb_eq in Heq. by rewrite Heq.
  - intros r code.
    serve_paths (srv st) (rw st) r; cbn [fst snd]; unfold plainEvents;
      intros Hin; repeat (apply elem_of_cons in Hin as [Hin|Hin]; try discriminate);
      try (by apply elem_of_nil in Hin).
    all: injection Hin as ->; split; [set_solver|]; eexists; intros impl w0; reflexivity.
Qed.

(** No run of [dispatch] answers 415. *)
Lemma selected_not_415 (s : Server) (w : ResponseWriter) (r : Request) (codec : Codec) :
  req_Method r = "POST" →
  selectCodec s (contentTypeOf r) = Some codec →
  EvWriteHeader 415 ∉ (serve s w r).2.
Proof.
  intros HPOST0 Hsel0.
  serve_paths s w r; try congruence; cbn [snd]; unfold plainEvents; intros Hin;
    repeat (apply elem_of_cons in Hin as [Hin|Hin]; try discriminate);
    by apply elem_of_nil in Hin.
Qed.

(** C1, as amended. For a POST request the handler selects the codec by the
    algorithm of the specification: with the Content-Type header cut at its
    first [";"], the codec is the only registered one if that string is
    empty and exactly one codec is registered, and otherwise the codec
    registered under the lower-cased string. The handler goes on with that
    codec and does not answer 415; if there is none it answers 415 in plain
    text and does nothing else. Registration stores under the lower-cased
    key, so any header whose media type lower-cases to that of a registered
    content type selects the codec registered under it. An empty
    Content-Type with other than one codec registered is answered with 415
    provided no codec is registered under the empty content type. *)
Theorem codec_selection_follows_Select (s : Server) (w : ResponseWriter) (r : Request) :
  req_Method r = "POST" →
  let contentTypeHeader := Header_Get (req_Header r) "Content-Type" in
  let stripped := stripParams contentTypeHeader in
  contentTypeOf r = stripped ∧
  match spec_Select (codecs s) contentTypeHeader with
  | Some codec =>
      serve s w r = func (dispatch (Some codec) r) {| srv := s; rw := w |} ∧
      EvWriteHeader 415 ∉ (serve s w r).2
  | None =>
      let msg := "rpc: unrecognized Content-Type: " +:+ stripped in
      serve s w r
      = (Next tt, {| srv := s; rw := plainError 415 msg w |}, plainEvents 415 msg)
  end ∧
  (∀ codec contentType,
     ToLower stripped = ToLower contentType →
     spec_Select (codecs (RegisterCodec s codec contentType)) contentTypeHeader
     = Some codec) ∧
  (stripped = "" → size (codecs s) ≠ 1%nat → codecs s !! ToLower "" = None →
   spec_Select (codecs s) contentTypeHeader = None).
Proof.
  intros HPOST0 contentTypeHeader stripped.
  pose proof (contentTypeOf_strip r) as Hstrip. fold contentTypeHeader stripped in Hstrip.
  split; [done|]. split; [|split].
  - pose proof (selectCodec_Select s contentTypeHeader) as Hsel0.
    fold stripped in Hsel0. rewrite <- Hstrip in Hsel0.
    destruct (spec_Select (codecs s) contentTypeHeader) as [codec|].
    + split; [by apply serve_selected|by eapply selected_not_415].
    + rewrite <- Hstrip. by apply serve_unrecognized.
  - intros codec contentType Hlow. unfold spec_Select. fold stripped.
    assert (codecs (RegisterCodec s codec contentType) !! ToLower stripped = Some codec)
      as Hreg by (rewrite Hlow; apply lookup_insert_eq).
    destruct stripped; [|done].
    destruct (map_to_list (codecs (RegisterCodec s codec contentType)))
      as [|[k c] [|? ?]] eqn:Hlist; try done.
    apply elem_of_map_to_list in Hreg. rewrite Hlist in Hreg.
    apply list_elem_of_singleton in Hreg. congruence.
  - intros Hempty Hsize Hnone. unfold spec_Select. fold stripped. rewrite Hempty.
    destruct (map_to_list (codecs s)) as [|[k c] [|? ?]] eqn:Hlist; try done.
    exfalso. apply Hsize, size_one_list. eauto.
Qed.

(** C2, as amended. For a POST request whose final path segment names no
    registered method the codec's [NewRequest] is never called, nor any
    other operation of the codec; and if a codec was selected for the
    request, the handler answers 404 with the lookup error as plain-text
    body, right after the lookup. *)
Theorem unregistered_path_is_404 (s : Server) (w : ResponseWriter) (r : Request)
    (errGet : error) :
  req_Method r = "POST" →
  Get (service s) (LastPart (req_URL_Path r)) = inr errGet →
  filter (λ e, isCodecCall e = true) (serve s w r).2 = [] ∧
  (∀ codec, selectCodec s (contentTypeOf r) = Some codec →
     serve s w r
     = (Next tt, {| srv := s; rw := plainError 404 (Error errGet) w |},
        EvGet (LastPart (req_URL_Path r)) :: plainEvents 404 (Error errGet))).
Proof.
  intros HPOST0 Hpath0. split.
  - serve_paths s w r; try congruence; reflexivity.
  - intros codec Hsel0. by apply serve_path_not_found with codec.
Qed.

(** C3. Once a codec is selected and the path names a registered method,
    each error that arises before the call (the envelope did not parse, the
    codec cannot name the method, the name it gives is not registered, the
    arguments do not decode) is written by the [WriteError] of the selected
    codec's request object, with status 400: that is the only write, and
    the plain-text writer is not used. *)
Theorem codec_errors_use_codec_writer (s : Server) (w : ResponseWriter) (r : Request)
    (codec : Codec) (pathSpec : MethodSpec) (e : error) :
  req_Method r = "POST" →
  selectCodec s (contentTypeOf r) = Some codec →
  Get (service s) (LastPart (req_URL_Path r)) = inl pathSpec →
  let codecReq := NewRequest codec r in
  (cr_Error codecReq = Some e
   ∨ (cr_Error codecReq = None ∧ ∃ name, cr_Method codecReq = (name, Some e))
   ∨ (cr_Error codecReq = None ∧
      ∃ name, cr_Method codecReq = (name, None) ∧ Get (service s) name = inr e)
   ∨ (cr_Error codecReq = None ∧
      ∃ name spec args,
        cr_Method codecReq = (name, None) ∧ Get (service s) name = inl spec ∧
        cr_ReadRequest codecReq (New (argsType spec)) = (args, Some e))) →
  rw (serve s w r).1.2 = cr_WriteError codecReq w 400 e ∧
  srv (serve s w r).1.2 = s ∧
  filter (λ ev, isCodecWrite ev = true) (serve s w r).2 = [EvCodecWriteError 400 e] ∧
  filter (λ ev, isPlainWrite ev = true) (serve s w r).2 = [] ∧
  filter (λ ev, isCall ev = true) (serve s w r).2 = [].
Proof.
  intros HPOST0 Hsel0 Hpath0 codecReq
    [He|[[He (name & Hm)]|[[He (name & Hm & Hget)]|[He (name & spec & args & Hm & Hget & Hread)]]]].
  - rewrite (serve_envelope_error s w r codec HPOST0 Hsel0 _ Hpath0 _ He). done.
  - rewrite (serve_method_error s w r codec HPOST0 Hsel0 _ Hpath0 _ _ He Hm). done.
  - rewrite (serve_unknown_method s w r codec HPOST0 Hsel0 _ Hpath0 _ _ He Hm Hget). done.
  - rewrite (serve_decode_error s w r codec HPOST0 Hsel0 _ Hpath0 _ _ _ _ He Hm Hget Hread).
    done.
Qed.

(** C4. A request that reaches the call (a codec is selected, the path
    names a registered method, the envelope parses and names a registered
    method, the arguments decode) gets exactly one response, through the
    codec: the method's error by [WriteError] with status 400 if the method
    returns one, and otherwise the reply, as the method left the freshly
    allocated value, by [WriteResponse]. *)
Theorem invocation_writes_one_response (s : Server) (w : ResponseWriter) (r : Request)
    (codec : Codec) (pathSpec spec : MethodSpec) (name : string) (args : Value) :
  req_Method r = "POST" →
  selectCodec s (contentTypeOf r) = Some codec →
  Get (service s) (LastPart (req_URL_Path r)) = inl pathSpec →
  let codecReq := NewRequest codec r in
  cr_Error codecReq = None →
  cr_Method codecReq = (name, None) →
  Get (service s) name = inl spec →
  cr_ReadRequest codecReq (New (argsType spec)) = (args, None) →
  let called := Func (method spec) (rcvr (service s)) r args (New (replyType spec)) in
  filter (λ ev, isCall ev = true) (serve s w r).2
  = [EvCall (Name (method spec)) args (New (replyType spec))] ∧
  filter (λ ev, isPlainWrite ev = true) (serve s w r).2 = [] ∧
  match called.2 with
  | Some e =>
      rw (serve s w r).1.2 = cr_WriteError codecReq w 400 e ∧
      filter (λ ev, isCodecWrite ev = true) (serve s w r).2 = [EvCodecWriteError 400 e]
  | None =>
      rw (serve s w r).1.2 = cr_WriteResponse codecReq w called.1.2 ∧
      filter (λ ev, isCodecWrite ev = true) (serve s w r).2 = [EvWriteResponse called.1.2]
  end.
Proof.
  intros HPOST0 Hsel0 Hpath0 codecReq He Hm Hget Hread called.
  rewrite (serve_invoked s w r codec HPOST0 Hsel0 _ Hpath0 _ _ _ He Hm Hget Hread).
  subst called.
  destruct (Func (method spec) (rcvr (service s)) r args (New (replyType spec)))
    as [[rcvr1 reply1] [e|]]; done.
Qed.

(** C5. In a dispatched request (a POST for which a codec is selected) both
    resolutions take place, one after the other. The final path segment
    must name a registered method: otherwise the answer is 404, whatever
    the envelope names. And whenever a method is called, the path segment
    was looked up first and found, the method called is the one the
    envelope names (looked up second), it is the only call, and it is the
    call that leaves the receiver in its new state; what the lookup of the
    path segment found is not used. *)
Theorem path_is_checked_envelope_is_invoked (s : Server) (w : ResponseWriter)
    (r : Request) (codec : Codec) :
  req_Method r = "POST" →
  selectCodec s (contentTypeOf r) = Some codec →
  let path := LastPart (req_URL_Path r) in
  let codecReq := NewRequest codec r in
  (∀ errGet, Get (service s) path = inr errGet →
     serve s w r
     = (Next tt, {| srv := s; rw := plainError 404 (Error errGet) w |},
        EvGet path :: plainEvents 404 (Error errGet))) ∧
  (∀ called args reply, EvCall called args reply ∈ (serve s w r).2 →
     ∃ pathSpec name spec,
       Get (service s) path = inl pathSpec ∧
       cr_Method codecReq = (name, None) ∧
       Get (service s) name = inl spec ∧
       called = Name (method spec) ∧
       reply = New (replyType spec) ∧
       args = (cr_ReadRequest codecReq (New (argsType spec))).1 ∧
       filter (λ ev, isCall ev = true) (serve s w r).2 = [EvCall called args reply] ∧
       (∃ rest, (serve s w r).2
                = EvGet path :: EvNewRequest :: EvError :: EvMethod :: EvGet name :: rest) ∧
       srv (serve s w r).1.2
       = setRcvr s (Func (method spec) (rcvr (service s)) r args reply).1.1).
Proof.
  intros HPOST0 Hsel0 path codecReq. split.
  - intros errGet Hget. by apply serve_path_not_found with codec.
  - intros called args reply. subst path codecReq.
    serve_paths s w r; try congruence; cbn [fst snd]; unfold plainEvents; intros Hin;
      repeat (apply elem_of_cons in Hin as [Hin|Hin]; try discriminate);
      try (by apply elem_of_nil in Hin).
    all: injection Hin as -> -> ->;
      assert (codec0 = codec) as -> by congruence;
      exists pathSpec, name, spec; rewrite Hm, Hread, Hcall;
      repeat split; eauto.
Qed.

(** ** Construction and statelessness *)

Lemma NewRpcService_none_eligible (receiver : Receiver) :
  (∀ c, c ∈ recv_methods receiver → eligible receiver c = None) →
  NewRpcService receiver = inr RegistrationError.
Proof.
  intros Hnone. unfold NewRpcService.
  destruct (omap (eligible receiver) (recv_methods receiver)) as [|spec specs] eqn:Hspecs;
    [done|].
  assert (spec ∈ omap (eligible receiver) (recv_methods receiver)) as Hin
    by (rewrite Hspecs; left).
  apply list_elem_of_omap in Hin as (c & Hc & Hsome).
  rewrite (Hnone c Hc) in Hsome. discriminate.
Qed.

Lemma NewRpcService_registry (receiver : Receiver) (svc : RpcService) :
  NewRpcService receiver = inl svc →
  rcvr svc = recv_value receiver ∧
  methods svc ≠ ∅ ∧
  ∀ name spec, methods svc !! name = Some spec →
    name = Name (method spec) ∧
    ∃ c, c ∈ recv_methods receiver ∧ eligible receiver c = Some spec.
Proof.
  unfold NewRpcService.
  destruct (omap (eligible receiver) (recv_methods receiver)) as [|spec0 specs] eqn:Hspecs;
    [discriminate|].
  intros [= <-]. cbn [rcvr methods]. split; [done|]. split.
  - cbn [map list_to_map]. apply insert_non_empty.
  - intros name spec Hlook.
    apply (elem_of_list_to_map_2
             (map (λ spec, (Name (method spec), spec)) (spec0 :: specs))) in Hlook.
    apply list_elem_of_fmap in Hlook as (spec' & [= -> ->] & Hin).
    split; [done|]. rewrite <- Hspecs in Hin.
    apply list_elem_of_omap in Hin as (c & Hc & Hsome). eauto.
Qed.

(** C6. A receiver none of whose methods qualifies gets no server:
    [NewServer] returns nil together with the RegistrationError. A server
    that [NewServer] does return comes with a nil error, no codec, and a
    registry that is not empty and holds only qualifying methods of the
    receiver, each under its own name. The handler leaves the registry (and
    the codec map) as it found them. *)
Theorem construction_is_atomic (receiver : Receiver) :
  ((∀ c, c ∈ recv_methods receiver → eligible receiver c = None) →
   NewServer receiver = (None, Some RegistrationError)) ∧
  (∀ server err, NewServer receiver = (Some server, err) →
     err = None ∧ codecs server = ∅ ∧ methods (service server) ≠ ∅ ∧
     ∀ name spec, methods (service server) !! name = Some spec →
       name = Name (method spec) ∧
       ∃ c, c ∈ recv_methods receiver ∧ eligible receiver c = Some spec) ∧
  (∀ server err, NewServer receiver = (server, err) →
     (server = None ↔ err ≠ None)) ∧
  (∀ s w r, methods (service (srv (serve s w r).1.2)) = methods (service s) ∧
            codecs (srv (serve s w r).1.2) = codecs s).
Proof.
  split; [|split; [|split]].
  - intros Hnone. unfold NewServer. by rewrite NewRpcService_none_eligible.
  - intros server err. unfold NewServer.
    destruct (NewRpcService receiver) as [svc|e] eqn:Hsvc; [|discriminate].
    intros [= <- <-]. cbn [codecs service].
    destruct (NewRpcService_registry _ _ Hsvc) as (_ & Hne & Hall). done.
  - intros server err. unfold NewServer.
    destruct (NewRpcService receiver) as [svc|e]; intros [= <- <-]; split; done.
  - intros s w r. destruct (serve_keeps_registries s w r) as (? & ? & _). done.
Qed.

(** C8. The handler keeps no state between requests. It leaves the codec
    map and the method registry as they are; the value it hands to the
    decoder and the reply it hands to the method are fresh from
    [reflect.New], of the argument type and the reply type of the method
    called; so if the registered methods leave the receiver as they found
    it, the server is after the request what it was before, and the same
    request submitted again, to a response writer in the same state, gets
    the same response by the same calls. *)
Theorem dispatch_is_stateless (s : Server) (w : ResponseWriter) (r : Request) :
  codecs (srv (serve s w r).1.2) = codecs s ∧
  methods (service (srv (serve s w r).1.2)) = methods (service s) ∧
  (∀ args, EvReadRequest args ∈ (serve s w r).2 →
     ∃ name spec, Get (service s) name = inl spec ∧ args = New (argsType spec)) ∧
  (∀ called args reply, EvCall called args reply ∈ (serve s w r).2 →
     ∃ name spec, Get (service s) name = inl spec ∧ called = Name (method spec) ∧
                  reply = New (replyType spec)) ∧
  (map_Forall (λ _ spec, keepsReceiver spec) (methods (service s)) →
   srv (serve s w r).1.2 = s ∧
   serve (srv (serve s w r).1.2) w r = serve s w r).
Proof.
  destruct (serve_keeps_registries s w r) as (Hc & Hm & _).
  split; [done|]. split; [done|]. split; [|split].
  - intros args0.
    serve_paths s w r; cbn [fst snd]; unfold plainEvents; intros Hin;
      repeat (apply elem_of_cons in Hin as [Hin|Hin]; try discriminate);
      try (by apply elem_of_nil in Hin).
    all: injection Hin as ->; eauto.
  - intros called args0 reply.
    serve_paths s w r; cbn [fst snd]; unfold plainEvents; intros Hin;
      repeat (apply elem_of_cons in Hin as [Hin|Hin]; try discriminate);
      try (by apply elem_of_nil in Hin).
    all: injection Hin as -> -> ->; eauto.
  - intros Hkeep.
    assert (srv (serve s w r).1.2 = s) as Hsame; [|by rewrite Hsame].
    assert (setRcvr s (rcvr (service s)) = s) as Hid by (by destruct s as [? []]).
    serve_paths s w r; try done; cbn [fst snd srv].
    all: unfold Get in Hget; destruct (methods (service s) !! name) as [spec'|] eqn:Hlook;
      [|discriminate]; injection Hget as ->;
      pose proof (Hkeep _ _ Hlook (rcvr (service s)) r args (New (replyType spec))) as Hk;
      rewrite Hcall in Hk; cbn in Hk; by subst.
Qed.

(** ** Registration and lookup *)

(** X1. Registering a codec under a content type that lower-cases like one
    already registered replaces the earlier codec: the last registration
    wins. Registration touches no other key and not the service. *)
Theorem RegisterCodec_last_wins (s : Server) (c1 c2 : Codec) (ct1 ct2 : string) :
  ToLower ct1 = ToLower ct2 →
  RegisterCodec (RegisterCodec s c1 ct1) c2 ct2 = RegisterCodec s c2 ct2 ∧
  codecs (RegisterCodec (RegisterCodec s c1 ct1) c2 ct2) !! ToLower ct1 = Some c2 ∧
  (∀ k, k ≠ ToLower ct2 →
     codecs (RegisterCodec (RegisterCodec s c1 ct1) c2 ct2) !! k = codecs s !! k) ∧
  service (RegisterCodec (RegisterCodec s c1 ct1) c2 ct2) = service s.
Proof.
  intros Hlow. unfold RegisterCodec. cbn [codecs service]. rewrite Hlow.
  rewrite insert_insert_eq. split; [done|]. split; [apply lookup_insert_eq|].
  split; [|done]. intros k Hk. by apply lookup_insert_ne.
Qed.

(** X2. For a POST request with a selected codec, [HasMethod] of the final
    path segment decides between the two continuations: the handler
    answers 404 exactly when it is false, and creates the codec request
    exactly when it is true. *)
Theorem HasMethod_decides_404 (s : Server) (w : ResponseWriter) (r : Request)
    (codec : Codec) :
  req_Method r = "POST" →
  selectCodec s (contentTypeOf r) = Some codec →
  (HasMethod s (LastPart (req_URL_Path r)) = false
   ↔ EvWriteHeader 404 ∈ (serve s w r).2) ∧
  (HasMethod s (LastPart (req_URL_Path r)) = true
   ↔ EvNewRequest ∈ (serve s w r).2).
Proof.
  intros HPOST0 Hsel0. unfold HasMethod.
  serve_paths s w r; try congruence; cbn [snd]; unfold plainEvents;
    split;
    (split;
     [ intros Hb; try discriminate Hb; repeat constructor
     | intros Hin; try reflexivity; exfalso;
       repeat (apply elem_of_cons in Hin as [Hin|Hin]; try discriminate);
       by apply elem_of_nil in Hin ]).
Qed.

(** ** Every run of the handler *)

(** X3. The handler never calls [NewRequest] on a nil codec: whenever the
    sole-codec default applies the loop over the codec map does find a
    codec, so no run panics and every run ends normally. *)
Theorem serve_never_panics (s : Server) (w : ResponseWriter) (r : Request) :
  (serve s w r).1.1 = Next tt ∧
  (soleDefault s (contentTypeOf r) = true → rangeCodecs (codecs s) ≠ None).
Proof.
  split; [by destruct (serve_keeps_registries s w r) as (_ & _ & ?)|].
  intros Hsole. destruct (soleDefault_selects _ _ Hsole) as (k & c & _ & _ & Hsel).
  unfold selectCodec in Hsel. rewrite Hsole in Hsel. congruence.
Qed.

(** X4. With registered codecs that are not nil (as the codec map has
    them) and codec and service methods that return, every request gets
    exactly one response. Either the plain-text writer is used once, with
    status 405, 415 or 404, and the codec writes nothing; or the codec
    request writes once, an error with status 400 or a reply, and the
    plain-text writer is not used. The write is the last thing the handler
    does. *)
Theorem exactly_one_response (s : Server) (w : ResponseWriter) (r : Request) :
  (∃ status msg,
     status ∈ [405; 415; 404] ∧
     filter (λ e, isPlainWrite e = true) (serve s w r).2 = plainEvents status msg ∧
     filter (λ e, isCodecWrite e = true) (serve s w r).2 = [] ∧
     rw (serve s w r).1.2 = plainError status msg w ∧
     ∃ before, (serve s w r).2 = (before ++ plainEvents status msg)%list)
  ∨ (∃ written,
       filter (λ e, isPlainWrite e = true) (serve s w r).2 = [] ∧
       filter (λ e, isCodecWrite e = true) (serve s w r).2 = [written] ∧
       ((∃ e, written = EvCodecWriteError 400 e) ∨ (∃ v, written = EvWriteResponse v)) ∧
       ∃ before, (serve s w r).2 = (before ++ [written])%list).
Proof.
  serve_paths s w r; cbn [fst snd rw].
  1-6: right; eexists; split; [reflexivity|]; split; [reflexivity|];
       (split; [eauto|]);
       match goal with
       | |- ∃ before, ?l = _ => exists (removelast l); reflexivity
       end.
  - left. exists 404, (Error errGet). split; [set_solver|]. repeat split.
    by exists [EvGet (LastPart (req_URL_Path r))].
  - left. exists 415, ("rpc: unrecognized Content-Type: " +:+ contentTypeOf r).
    split; [set_solver|]. repeat split. by exists [].
  - left. exists 405, ("rpc: POST method required, received " +:+ req_Method r).
    split; [set_solver|]. repeat split. by exists [].
Qed.

(** ** Content types *)

Lemma stripParams_append (t params : string) :
  stripParams (t +:+ String ";" params) = stripParams t.
Proof.
  induction t as [|c t IH]; [reflexivity|].
  change (String c t +:+ String ";" params) with (String c (t +:+ String ";" params)).
  cbn [stripParams]. destruct (Ascii.eqb c ";"); [done|]. by rewrite IH.
Qed.

Lemma no_semicolon_strip (t : string) : strings_Index t ";" = -1 → stripParams t = t.
Proof.
  unfold strings_Index. pose proof (index_semicolon t) as Hcut.
  destruct (String.index 0 ";" t); [lia|done].
Qed.

(** X5. Parameters of the Content-Type header are ignored: for a media
    type without [";"], the header made of the media type, a [";"] and
    anything after it is cut down to the media type, and selects what the
    media type alone selects. A header without [";"] is taken whole. *)
Theorem parameters_are_ignored (s : Server) (r plain : Request) (t params : string) :
  strings_Index t ";" = -1 →
  Header_Get (req_Header r) "Content-Type" = t +:+ String ";" params →
  Header_Get (req_Header plain) "Content-Type" = t →
  contentTypeOf r = t ∧
  contentTypeOf plain = t ∧
  selectCodec s (contentTypeOf r) = selectCodec s (contentTypeOf plain).
Proof.
  intros Hfree Hr Hplain.
  assert (contentTypeOf r = t) as ->
    by (by rewrite contentTypeOf_strip, Hr, stripParams_append, no_semicolon_strip).
  assert (contentTypeOf plain = t) as ->
    by (by rewrite contentTypeOf_strip, Hplain, no_semicolon_strip).
  done.
Qed.

(** X6. A server as [NewServer] returns it has no codec, and answers every
    POST request with 415 until a codec is registered. *)
Theorem new_server_answers_415 (receiver : Receiver) (s : Server) (err : option error)
    (w : ResponseWriter) (r : Request) :
  NewServer receiver = (Some s, err) →
  req_Method r = "POST" →
  let msg := "rpc: unrecognized Content-Type: " +:+ contentTypeOf r in
  codecs s = ∅ ∧
  serve s w r = (Next tt, {| srv := s; rw := plainError 415 msg w |}, plainEvents 415 msg).
Proof.
  intros Hnew HPOST0 msg.
  assert (codecs s = ∅) as Hempty.
  { unfold NewServer in Hnew. destruct (NewRpcService receiver); [|discriminate].
    by injection Hnew as <- <-. }
  split; [done|]. apply serve_unrecognized; [done|].
  unfold selectCodec, soleDefault. rewrite Hempty, map_size_empty.
  rewrite (bool_decide_eq_false_2 (0%nat = 1%nat)) by lia.
  rewrite andb_false_r. apply lookup_empty.
Qed.

(** X7. Once exactly one codec is registered, under whatever content type,
    a POST request whose Content-Type header is missing or empty is
    handled with that codec. *)
Theorem sole_codec_is_the_default (s : Server) (codec : Codec) (contentType : string)
    (w : ResponseWriter) (r : Request) :
  codecs s = ∅ →
  req_Method r = "POST" →
  Header_Get (req_Header r) "Content-Type" = "" →
  let s1 := RegisterCodec s codec contentType in
  selectCodec s1 (contentTypeOf r) = Some codec ∧
  serve s1 w r = func (dispatch (Some codec) r) {| srv := s1; rw := w |}.
Proof.
  intros Hempty HPOST0 Hheader s1.
  assert (selectCodec s1 (contentTypeOf r) = Some codec) as Hsel.
  { rewrite contentTypeOf_strip, Hheader. cbn [stripParams].
    unfold selectCodec, soleDefault, s1, RegisterCodec. cbn [codecs].
    rewrite Hempty, insert_empty, map_size_singleton.
    rewrite !bool_decide_eq_true_2 by done. cbn [andb].
    unfold rangeCodecs. by rewrite map_to_list_singleton. }
  split; [done|]. by apply serve_selected.
Qed.

(** X8. The sole-codec default is for an empty Content-Type only: a POST
    request with a non-empty media type that is not registered is answered
    with 415, however many codecs are registered. *)
Theorem unknown_media_type_is_415 (s : Server) (w : ResponseWriter) (r : Request) :
  req_Method r = "POST" →
  contentTypeOf r ≠ "" →
  codecs s !! ToLower (contentTypeOf r) = None →
  let msg := "rpc: unrecognized Content-Type: " +:+ contentTypeOf r in
  serve s w r = (Next tt, {| srv := s; rw := plainError 415 msg w |}, plainEvents 415 msg).
Proof.
  intros HPOST0 Hne Hnone msg. apply serve_unrecognized; [done|].
  unfold selectCodec, soleDefault. by rewrite bool_decide_eq_false_2.
Qed.

(** ** What a call takes *)

(** X9. A service method is called only when every check has passed: the
    request is a POST, a codec is selected, the final path segment and the
    name in the envelope are both registered, the envelope parsed and the
    arguments decoded without error. *)
Theorem call_requires_every_check (s : Server) (w : ResponseWriter) (r : Request)
    (called : string) (args reply : Value) :
  EvCall called args reply ∈ (serve s w r).2 →
  req_Method r = "POST" ∧
  HasMethod s (LastPart (req_URL_Path r)) = true ∧
  ∃ codec name,
    selectCodec s (contentTypeOf r) = Some codec ∧
    cr_Error (NewRequest codec r) = None ∧
    cr_Method (NewRequest codec r) = (name, None) ∧
    HasMethod s name = true ∧
    ∃ spec, Get (service s) name = inl spec ∧
            cr_ReadRequest (NewRequest codec r) (New (argsType spec)) = (args, None).
Proof.
  unfold HasMethod.
  serve_paths s w r; cbn [snd]; unfold plainEvents; intros Hin;
    repeat (apply elem_of_cons in Hin as [Hin|Hin]; try discriminate);
    try (by apply elem_of_nil in Hin).
  all: injection Hin as -> -> ->; split; [done|]; split; [done|];
    exists codec, name; rewrite Hget; eauto 10.
Qed.

(** X10. Before the codec request is created the body plays no part: if
    the handler answers a request without calling [NewRequest], it answers
    the same request with any other body in the same way. *)
Theorem body_is_not_read_before_NewRequest (s : Server) (w : ResponseWriter)
    (r : Request) (body : Body) :
  EvNewRequest ∉ (serve s w r).2 →
  serve s w (withBody r body) = serve s w r.
Proof.
  serve_paths s w r; cbn [snd]; intros Hnot;
    try solve [exfalso; apply Hnot; repeat constructor].
  - exact (serve_path_not_found s w (withBody r body) codec HPOST Hsel _ Hpath).
  - exact (serve_unrecognized s w (withBody r body) HPOST Hsel).
  - exact (serve_not_POST s w (withBody r body) HPOST).
Qed.

(** X11. In one run the handler creates at most one codec request, has
    the arguments decoded at most once, calls at most one method, and
    looks up at most two names. *)
Theorem at_most_one_of_each (s : Server) (w : ResponseWriter) (r : Request) :
  (length (filter (λ e, isNewRequest e = true) (serve s w r).2) ≤ 1)%nat ∧
  (length (filter (λ e, isReadRequest e = true) (serve s w r).2) ≤ 1)%nat ∧
  (length (filter (λ e, isCall e = true) (serve s w r).2) ≤ 1)%nat ∧
  (length (filter (λ e, isGet e = true) (serve s w r).2) ≤ 2)%nat.
Proof. serve_paths s w r; cbv [snd]; repeat split; repeat constructor. Qed.

End Properties.

(** ** The arithmetic service *)

Import Sample.

Lemma wrap_int (z : Z) : is_int z → wrap z = z.
Proof.
  unfold is_int, wrap. intros Hz.
  change (2 ^ 64) with (2 ^ 63 + 2 ^ 63). rewrite Z.mod_small; lia.
Qed.

Lemma quot_is_int (a b : Z) :
  is_int a → is_int b → b ≠ 0 → ¬ (a = - 2 ^ 63 ∧ b = -1) → is_int (a ÷ b).
Proof.
  unfold is_int. intros Ha Hb Hb0 Hov.
  pose proof (Z.quot_rem' a b) as Hqr.
  pose proof (Z.rem_bound_abs a b Hb0) as Hr.
  pose proof (Z.rem_sign_mul a b Hb0) as Hs.
  change (2 ^ 63) with 9223372036854775808 in *.
  nia.
Qed.

Lemma rem_is_int (a b : Z) : is_int a → is_int b → b ≠ 0 → is_int (Z.rem a b).
Proof.
  unfold is_int. intros Ha Hb Hb0.
  pose proof (Z.rem_bound_abs a b Hb0) as Hr.
  change (2 ^ 63) with 9223372036854775808 in *. lia.
Qed.

(** C7, as amended. On [int] arguments [Multiply] sets the reply to the
    product wrapped to the width of [int], which is the product itself when
    that fits, and returns nil. [Divide] with a divisor other than 0 sets
    [Quo] to the quotient truncated toward zero, unless the dividend is the
    least [int] and the divisor -1, and [Rem] to the remainder, and returns
    nil. With divisor 0 it returns an error and leaves the quotient value as
    it was. *)
Theorem arithmetic_is_exact_within_int (args : Args) (reply : Z) (quo : Quotient) :
  is_int (A args) → is_int (B args) →
  Multiply args reply = (wrap (A args * B args), None) ∧
  (is_int (A args * B args) → Multiply args reply = (A args * B args, None)) ∧
  (B args ≠ 0 →
   Divide args quo
   = ({| Quo := wrap (A args ÷ B args); Rem := Z.rem (A args) (B args) |}, None)) ∧
  (B args ≠ 0 → ¬ (A args = - 2 ^ 63 ∧ B args = -1) →
   Divide args quo
   = ({| Quo := A args ÷ B args; Rem := Z.rem (A args) (B args) |}, None)) ∧
  (B args = 0 → Divide args quo = (quo, Some (ErrorString "divide by zero"))).
Proof.
  intros Ha Hb.
  assert (B args ≠ 0 →
          Divide args quo
          = ({| Quo := wrap (A args ÷ B args); Rem := Z.rem (A args) (B args) |}, None))
    as Hdiv.
  { intros Hb0. unfold Divide. apply Z.eqb_neq in Hb0 as Heqb. rewrite Heqb.
    cbn [Quo Rem]. by rewrite (wrap_int (Z.rem _ _)) by by apply rem_is_int. }
  split; [reflexivity|]. split; [|split; [|split]].
  - intros Hfit. unfold Multiply. by rewrite wrap_int.
  - done.
  - intros Hb0 Hov. rewrite Hdiv by done. by rewrite wrap_int by by apply quot_is_int.
  - intros Hb0. unfold Divide. by rewrite Hb0.
Qed.

(** ** The theorems at work on the example service *)

Lemma arithmetic_is_exact_within_int_witness :
  is_int 6 ∧ is_int 7 ∧ is_int 2 ∧
  Multiply {| A := 6; B := 7 |} 0 = (42, None) ∧
  Divide {| A := 7; B := 2 |} {| Quo := 0; Rem := 0 |} = ({| Quo := 3; Rem := 1 |}, None) ∧
  Divide {| A := 1; B := 0 |} {| Quo := 0; Rem := 0 |}
  = ({| Quo := 0; Rem := 0 |}, Some (ErrorString "divide by zero")).
Proof.
  assert (is_int 6 ∧ is_int 7 ∧ is_int 2 ∧ is_int 1 ∧ is_int 0) as (H6 & H7 & H2 & H1 & H0)
    by (unfold is_int; lia).
  split; [done|]. split; [done|]. split; [done|]. split; [|split].
  - destruct (arithmetic_is_exact_within_int {| A := 6; B := 7 |} 0 {| Quo := 0; Rem := 0 |}
                H6 H7) as (_ & Hmul & _).
    apply Hmul. unfold is_int. cbn. lia.
  - destruct (arithmetic_is_exact_within_int {| A := 7; B := 2 |} 0 {| Quo := 0; Rem := 0 |}
                H7 H2) as (_ & _ & _ & Hdiv & _).
    apply Hdiv; cbn; lia.
  - destruct (arithmetic_is_exact_within_int {| A := 1; B := 0 |} 0 {| Quo := 0; Rem := 0 |}
                H1 H0) as (_ & _ & _ & _ & Hzero).
    by apply Hzero.
Defined.

(** The product of two [int]s need not be the reply of [Multiply], and the
    quotient need not be the [Quo] of [Divide]. *)
Lemma Multiply_overflows :
  let args := {| A := 2 ^ 32; B := 2 ^ 32 |} in
  is_int (A args) ∧ is_int (B args) ∧
  (Multiply args 0).1 = 0 ∧ (Multiply args 0).1 ≠ A args * B args ∧
  let args' := {| A := - 2 ^ 63; B := -1 |} in
  is_int (A args') ∧ is_int (B args') ∧
  Quo (Divide args' {| Quo := 0; Rem := 0 |}).1 ≠ A args' ÷ B args'.
Proof. cbv zeta. unfold is_int. vm_compute. repeat split; congruence. Qed.

Lemma non_POST_is_405_witness :
  let r := get "/jsonrpc/v2/Multiply" (call "Multiply" 6 7) in
  req_Method r ≠ "POST" ∧
  (serve anotherServer newResponseWriter r).2
  = plainEvents 405 "rpc: POST method required, received GET" ∧
  status (rw (serve anotherServer newResponseWriter r).1.2) = Some 405.
Proof.
  intros r. assert (req_Method r ≠ "POST") as Hm by discriminate.
  split; [done|].
  destruct (non_POST_is_405 anotherServer newResponseWriter r Hm) as [-> _].
  split; reflexivity.
Defined.

(** On a writer that defers status and header to the first [Write], the
    405 of the handler is sent with the Content-Type [WriteError] sets. *)
Lemma deferring_writer_sends_the_header :
  let r := get "/jsonrpc/v2/Multiply" (call "Multiply" 6 7) in
  (serve anotherServer newResponseWriter r).2
  = [EvWriteHeader 405;
     EvHeaderSet "Content-Type" "text/plain; charset=utf-8";
     EvFprint "rpc: POST method required, received GET"] ∧
  d_sent (replay deferringWriter (serve anotherServer newResponseWriter r).2
            newDeferredWriter)
  = Some (405, {[ "Content-Type" := ["text/plain; charset=utf-8"] ]}) ∧
  sent (replay contractWriter (serve anotherServer newResponseWriter r).2
          newResponseWriter)
  = Some (405, ∅).
Proof. vm_compute. repeat split. Qed.

Lemma WriteError_header_depends_on_writer_witness :
  let r := post "application/json" "/jsonrpc/v2/Nope" (call "Divide" 7 2) in
  sent newResponseWriter = None ∧
  d_sent newDeferredWriter = None ∧
  0 < 404 ∧
  EvWriteHeader 404 ∈ (serve anotherServer newResponseWriter r).2 ∧
  sent (plainError 404 "not found" newResponseWriter) = Some (404, ∅) ∧
  d_sent (replay (V:=val) deferringWriter (plainEvents 404 "not found") newDeferredWriter)
  = Some (404, <["Content-Type" := ["text/plain; charset=utf-8"]]> ∅) ∧
  404 ∈ [405; 415; 404].
Proof.
  intros r.
  assert (EvWriteHeader 404 ∈ (serve anotherServer newResponseWriter r).2) as Hin
    by (vm_compute; repeat constructor).
  assert (0 < 404) as Hpos by lia.
  destruct (WriteError_header_depends_on_writer 404 "not found"
              {| srv := anotherServer; rw := newResponseWriter |})
    as (_ & Hcontract & Hdeferred & Hserve).
  destruct (Hcontract newResponseWriter eq_refl) as (_ & Hsent & _).
  destruct (Hserve r 404 Hin) as [Hcode _].
  split; [reflexivity|]. split; [reflexivity|]. split; [exact Hpos|].
  split; [exact Hin|]. split; [exact Hsent|].
  split; [exact (Hdeferred newDeferredWriter eq_refl Hpos)|exact Hcode].
Defined.

(** An empty Content-Type with two codecs registered, one of them under
    the empty content type: the codec is selected and the method called. *)
Lemma empty_type_selects_registered_codec :
  let r := post "" "/jsonrpc/v2/Multiply" (call "Multiply" 6 7) in
  req_Method r = "POST" ∧
  Header_Get (req_Header r) "Content-Type" = "" ∧
  size (codecs emptyTypeServer) = 2%nat ∧
  (serve emptyTypeServer newResponseWriter r).2
  = [EvGet "Multiply"; EvNewRequest; EvError; EvMethod; EvGet "Multiply";
     EvReadRequest (VArgs {| A := 0; B := 0 |});
     EvCall "Multiply" (VArgs {| A := 6; B := 7 |}) (VInt 0);
     EvWriteResponse (VInt 42)] ∧
  status (rw (serve emptyTypeServer newResponseWriter r).1.2) = Some 200.
Proof. vm_compute. repeat split. Qed.

Lemma codec_selection_follows_Select_witness :
  let r := post "Application/JSON; charset=utf-8" "/jsonrpc/v2/Multiply"
             (call "Multiply" 6 7) in
  let none := post "" "/jsonrpc/v2/Multiply" (call "Multiply" 6 7) in
  req_Method r = "POST" ∧
  contentTypeOf r = "Application/JSON" ∧
  spec_Select (codecs (RegisterCodec bareServer scriptCodec "application/json"))
    "Application/JSON; charset=utf-8" = Some scriptCodec ∧
  size (codecs twoCodecs) ≠ 1%nat ∧
  codecs twoCodecs !! ToLower "" = None ∧
  spec_Select (codecs twoCodecs) "" = None ∧
  (serve twoCodecs newResponseWriter none).2
  = plainEvents 415 "rpc: unrecognized Content-Type: ".
Proof.
  intros r none.
  destruct (codec_selection_follows_Select bareServer newResponseWriter r eq_refl)
    as (Hstrip & _ & Hreg & _).
  destruct (codec_selection_follows_Select twoCodecs newResponseWriter none eq_refl)
    as (_ & Hrun & _ & Hempty).
  assert (size (codecs twoCodecs) ≠ 1%nat) as Hsize by (vm_compute; discriminate).
  assert (codecs twoCodecs !! ToLower "" = None) as Hfree by reflexivity.
  specialize (Hempty eq_refl Hsize Hfree).
  split; [reflexivity|]. split; [exact Hstrip|].
  split; [exact (Hreg scriptCodec "application/json" eq_refl)|].
  split; [exact Hsize|]. split; [exact Hfree|]. split; [exact Hempty|].
  change (Header_Get (req_Header none) "Content-Type") with "" in Hrun.
  change (Header_Get (req_Header none) "Content-Type") with "" in Hempty.
  rewrite Hempty in Hrun. rewrite Hrun. reflexivity.
Defined.

(** A POST to an unregistered path on a server without a matching codec is
    answered with 415, not 404. *)
Lemma unregistered_path_without_codec_is_415 :
  let r := post "application/json" "/jsonrpc/v2/Nope" (call "Divide" 7 2) in
  req_Method r = "POST" ∧
  Get (service bareServer) (LastPart (req_URL_Path r)) = inr (NotFoundError "Nope") ∧
  (serve bareServer newResponseWriter r).2
  = plainEvents 415 "rpc: unrecognized Content-Type: application/json" ∧
  status (rw (serve bareServer newResponseWriter r).1.2) = Some 415 ∧
  status (rw (serve bareServer newResponseWriter r).1.2) ≠ Some 404.
Proof. vm_compute. repeat split. congruence. Qed.

Lemma unregistered_path_is_404_witness :
  let r := post "application/json" "/jsonrpc/v2/Nope" (call "Divide" 7 2) in
  req_Method r = "POST" ∧
  Get (service anotherServer) (LastPart (req_URL_Path r)) = inr (NotFoundError "Nope") ∧
  selectCodec anotherServer (contentTypeOf r) = Some scriptCodec ∧
  filter (λ e, isCodecCall e = true) (serve anotherServer newResponseWriter r).2 = [] ∧
  (serve anotherServer newResponseWriter r).2
  = EvGet "Nope" :: plainEvents 404 "rpc: can't find method Nope" ∧
  status (rw (serve anotherServer newResponseWriter r).1.2) = Some 404.
Proof.
  intros r.
  assert (Get (service anotherServer) (LastPart (req_URL_Path r))
          = inr (NotFoundError "Nope")) as Hget by reflexivity.
  assert (selectCodec anotherServer (contentTypeOf r) = Some scriptCodec) as Hsel
    by reflexivity.
  destruct (unregistered_path_is_404 anotherServer newResponseWriter r _ eq_refl Hget)
    as [Hquiet Hrun].
  split; [reflexivity|]. split; [exact Hget|]. split; [exact Hsel|].
  split; [exact Hquiet|]. rewrite (Hrun _ Hsel). split; reflexivity.
Defined.

Lemma codec_errors_use_codec_writer_witness :
  let r := post "application/json" "/jsonrpc/v2/Multiply" garbled in
  req_Method r = "POST" ∧
  selectCodec anotherServer (contentTypeOf r) = Some scriptCodec ∧
  Get (service anotherServer) (LastPart (req_URL_Path r)) = inl multiplySpec ∧
  cr_Error (NewRequest scriptCodec r) = Some (ErrorString "parse error") ∧
  filter (λ ev, isCodecWrite ev = true) (serve anotherServer newResponseWriter r).2
  = [EvCodecWriteError 400 (ErrorString "parse error")] ∧
  filter (λ ev, isPlainWrite ev = true) (serve anotherServer newResponseWriter r).2 = [] ∧
  status (rw (serve anotherServer newResponseWriter r).1.2) = Some 400.
Proof.
  intros r.
  assert (selectCodec anotherServer (contentTypeOf r) = Some scriptCodec) as Hsel
    by reflexivity.
  assert (Get (service anotherServer) (LastPart (req_URL_Path r)) = inl multiplySpec)
    as Hpath by reflexivity.
  destruct (codec_errors_use_codec_writer anotherServer newResponseWriter r
              scriptCodec multiplySpec (ErrorString "parse error")
              eq_refl Hsel Hpath (or_introl eq_refl))
    as (Hrw & _ & Hcodec & Hplain & _).
  split; [reflexivity|]. split; [exact Hsel|]. split; [exact Hpath|].
  split; [reflexivity|]. split; [exact Hcodec|]. split; [exact Hplain|].
  rewrite Hrw. reflexivity.
Defined.

Lemma invocation_writes_one_response_witness :
  let r := post "application/json" "/jsonrpc/v2/Divide" (call "Divide" 1 0) in
  let codecReq := NewRequest scriptCodec r in
  req_Method r = "POST" ∧
  selectCodec anotherServer (contentTypeOf r) = Some scriptCodec ∧
  Get (service anotherServer) (LastPart (req_URL_Path r)) = inl divideSpec ∧
  cr_Error codecReq = None ∧
  cr_Method codecReq = ("Divide", None) ∧
  Get (service anotherServer) "Divide" = inl divideSpec ∧
  cr_ReadRequest codecReq (New (argsType divideSpec)) = (VArgs {| A := 1; B := 0 |}, None) ∧
  filter (λ ev, isCodecWrite ev = true) (serve anotherServer newResponseWriter r).2
  = [EvCodecWriteError 400 (ErrorString "divide by zero")] ∧
  filter (λ ev, isCall ev = true) (serve anotherServer newResponseWriter r).2
  = [EvCall "Divide" (VArgs {| A := 1; B := 0 |}) (VQuotient {| Quo := 0; Rem := 0 |})].
Proof.
  intros r codecReq.
  assert (selectCodec anotherServer (contentTypeOf r) = Some scriptCodec) as Hsel
    by reflexivity.
  assert (Get (service anotherServer) (LastPart (req_URL_Path r)) = inl divideSpec)
    as Hpath by reflexivity.
  assert (Get (service anotherServer) "Divide" = inl divideSpec) as Hget by reflexivity.
  destruct (invocation_writes_one_response anotherServer newResponseWriter r
              scriptCodec divideSpec divideSpec "Divide" (VArgs {| A := 1; B := 0 |})
              eq_refl Hsel Hpath eq_refl eq_refl Hget eq_refl)
    as (Hcall & _ & _ & Hwrite).
  split; [reflexivity|]. split; [exact Hsel|]. split; [exact Hpath|].
  split; [reflexivity|]. split; [reflexivity|]. split; [exact Hget|].
  split; [reflexivity|]. split; [exact Hwrite|exact Hcall].
Defined.

Lemma path_is_checked_envelope_is_invoked_witness :
  let r := post "application/json" "/jsonrpc/v2/Multiply" (call "Divide" 7 2) in
  req_Method r = "POST" ∧
  selectCodec anotherServer (contentTypeOf r) = Some scriptCodec ∧
  LastPart (req_URL_Path r) = "Multiply" ∧
  ∃ called args reply,
    called = "Divide" ∧
    filter (λ ev, isCall ev = true) (serve anotherServer newResponseWriter r).2
    = [EvCall called args reply].
Proof.
  intros r.
  assert (selectCodec anotherServer (contentTypeOf r) = Some scriptCodec) as Hsel
    by reflexivity.
  assert (EvCall "Divide" (VArgs {| A := 7; B := 2 |}) (VQuotient {| Quo := 0; Rem := 0 |})
          ∈ (serve anotherServer newResponseWriter r).2) as Hin
    by (vm_compute; repeat constructor).
  destruct (path_is_checked_envelope_is_invoked anotherServer newResponseWriter r
              scriptCodec eq_refl Hsel) as [_ Hcalls].
  destruct (Hcalls _ _ _ Hin) as (pathSpec & name & spec & _ & _ & _ & _ & _ & _ & Honly & _).
  split; [reflexivity|]. split; [exact Hsel|]. split; [reflexivity|].
  eexists _, _, _. split; [reflexivity|exact Honly].
Defined.

Lemma construction_is_atomic_witness :
  (∀ c, c ∈ recv_methods noMethods → eligible noMethods c = None) ∧
  NewServer noMethods = (None, Some RegistrationError) ∧
  ∃ server, NewServer arith = (Some server, None) ∧
            methods (service server) !! "Multiply" = Some multiplySpec.
Proof.
  assert (∀ c, c ∈ recv_methods noMethods → eligible noMethods c = None) as Hnone.
  { intros c Hc. repeat (apply elem_of_cons in Hc as [->|Hc]; [reflexivity|]).
    by apply elem_of_nil in Hc. }
  destruct (construction_is_atomic noMethods) as (Hfail & _).
  split; [exact Hnone|]. split; [exact (Hfail Hnone)|].
  eexists. split; reflexivity.
Defined.

Lemma dispatch_is_stateless_witness :
  let r := post "application/json" "/jsonrpc/v2/Multiply" (call "Multiply" 6 7) in
  map_Forall (λ _ spec, keepsReceiver spec) (methods (service anotherServer)) ∧
  srv (serve anotherServer newResponseWriter r).1.2 = anotherServer ∧
  serve (srv (serve anotherServer newResponseWriter r).1.2) newResponseWriter r
  = serve anotherServer newResponseWriter r.
Proof.
  intros r.
  assert (map_Forall (λ _ spec, keepsReceiver spec) (methods (service anotherServer)))
    as Hkeep.
  { change (methods (service anotherServer))
      with (<["Multiply" := multiplySpec]> (<["Divide" := divideSpec]> ∅)
              : gmap string MethodSpec).
    apply map_Forall_insert_2; [|apply map_Forall_insert_2; [|apply map_Forall_empty]].
    - intros v r0 [n|a|q] [n'|a'|q']; reflexivity.
    - intros v r0 [n|a|q] [n'|a'|q']; try reflexivity.
      cbn. unfold DivideFunc. by destruct (Divide a q'). }
  destruct (dispatch_is_stateless anotherServer newResponseWriter r)
    as (_ & _ & _ & _ & Hsame).
  split; [exact Hkeep|]. exact (Hsame Hkeep).
Defined.

(** ** More on the arithmetic service *)

Lemma Divide_in_range (args : Args) (quo : Quotient) :
  is_int (A args) → is_int (B args) → B args ≠ 0 →
  ¬ (A args = - 2 ^ 63 ∧ B args = -1) →
  Divide args quo = ({| Quo := A args ÷ B args; Rem := Z.rem (A args) (B args) |}, None).
Proof.
  intros Ha Hb Hb0 Hov. unfold Divide. apply Z.eqb_neq in Hb0 as Heqb. rewrite Heqb.
  cbn [Quo Rem]. rewrite (wrap_int (Z.rem _ _)) by by apply rem_is_int.
  by rewrite wrap_int by by apply quot_is_int.
Qed.

(** X12. What [Divide] returns for a divisor other than 0 (the overflowing
    pair apart) divides: dividend = divisor * [Quo] + [Rem], the remainder
    is smaller in absolute value than the divisor, and it is zero or has
    the sign of the dividend. *)
Theorem Divide_divides (args : Args) (quo : Quotient) :
  is_int (A args) → is_int (B args) →
  B args ≠ 0 →
  ¬ (A args = - 2 ^ 63 ∧ B args = -1) →
  let result := (Divide args quo).1 in
  (Divide args quo).2 = None ∧
  A args = B args * Quo result + Rem result ∧
  Z.abs (Rem result) < Z.abs (B args) ∧
  (0 <= Rem result * A args)%Z ∧
  is_int (Quo result) ∧ is_int (Rem result).
Proof.
  intros Ha Hb Hb0 Hov result. subst result.
  rewrite (Divide_in_range args quo Ha Hb Hb0 Hov).
  cbn [fst snd Quo Rem].
  split; [done|]. split; [apply Z.quot_rem'|]. split; [by apply Z.rem_bound_abs|].
  split; [by apply Z.rem_sign_mul|]. split; [by apply quot_is_int|by apply rem_is_int].
Qed.

(** X13. [Multiply] behind the handler: when the request reaches the call
    with the envelope naming ["Multiply"], registered as the method of the
    example service, and the arguments decoded as [a] and [b], the one
    response is the reply [a * b] (wrapped), written by the codec's
    [WriteResponse]; the server is left as it was. *)
Theorem Multiply_through_the_handler (s : Server) (w : ResponseWriter) (r : Request)
    (codec : Codec) (pathSpec : MethodSpec) (a b : Z) :
  req_Method r = "POST" →
  selectCodec s (contentTypeOf r) = Some codec →
  Get (service s) (LastPart (req_URL_Path r)) = inl pathSpec →
  cr_Error (NewRequest codec r) = None →
  cr_Method (NewRequest codec r) = ("Multiply", None) →
  Get (service s) "Multiply" = inl multiplySpec →
  cr_ReadRequest (NewRequest codec r) (zero TArgs) = (VArgs {| A := a; B := b |}, None) →
  serve s w r
  = (Next tt,
     {| srv := s; rw := cr_WriteResponse (NewRequest codec r) w (VInt (wrap (a * b))) |},
     [EvGet (LastPart (req_URL_Path r)); EvNewRequest; EvError; EvMethod;
      EvGet "Multiply"; EvReadRequest (zero TArgs);
      EvCall "Multiply" (VArgs {| A := a; B := b |}) (VInt 0);
      EvWriteResponse (VInt (wrap (a * b)))]).
Proof.
  intros HPOST Hsel Hpath He Hm Hget Hread.
  rewrite (serve_invoked s w r codec HPOST Hsel _ Hpath _ _ _ He Hm Hget Hread).
  cbn. by destruct s as [? []].
Qed.

(** X14. [Divide] behind the handler, under the same conditions with the
    envelope naming ["Divide"]: with divisor 0 the one response is the
    error "divide by zero", written by the codec's [WriteError] with status
    400, and no reply is written; otherwise it is the quotient and the
    remainder, written by [WriteResponse]. The server is left as it was. *)
Theorem Divide_through_the_handler (s : Server) (w : ResponseWriter) (r : Request)
    (codec : Codec) (pathSpec : MethodSpec) (a b : Z) :
  req_Method r = "POST" →
  selectCodec s (contentTypeOf r) = Some codec →
  Get (service s) (LastPart (req_URL_Path r)) = inl pathSpec →
  cr_Error (NewRequest codec r) = None →
  cr_Method (NewRequest codec r) = ("Divide", None) →
  Get (service s) "Divide" = inl divideSpec →
  cr_ReadRequest (NewRequest codec r) (zero TArgs) = (VArgs {| A := a; B := b |}, None) →
  let before :=
    [EvGet (LastPart (req_URL_Path r)); EvNewRequest; EvError; EvMethod;
     EvGet "Divide"; EvReadRequest (zero TArgs);
     EvCall "Divide" (VArgs {| A := a; B := b |}) (zero TQuotient)] in
  serve s w r
  = if (b =? 0)%Z then
      (Next tt,
       {| srv := s;
          rw := cr_WriteError (NewRequest codec r) w 400 (ErrorString "divide by zero") |},
       (before ++ [EvCodecWriteError 400 (ErrorString "divide by zero")])%list)
    else
      let quo := {| Quo := wrap (a ÷ b); Rem := wrap (Z.rem a b) |} in
      (Next tt,
       {| srv := s; rw := cr_WriteResponse (NewRequest codec r) w (VQuotient quo) |},
       (before ++ [EvWriteResponse (VQuotient quo)])%list).
Proof.
  intros HPOST Hsel Hpath He Hm Hget Hread before. subst before.
  rewrite (serve_invoked s w r codec HPOST Hsel _ Hpath _ _ _ He Hm Hget Hread).
  cbn. unfold Divide. cbn [A B]. destruct (b =? 0)%Z; cbn; by destruct s as [? []].
Qed.

(** ** The further theorems at work on the example service *)

Lemma RegisterCodec_last_wins_witness :
  let quiet : Codec := {| NewRequest := λ r, NewRequest scriptCodec (withBody r garbled) |} in
  ToLower "Application/JSON" = ToLower "application/json" ∧
  codecs (RegisterCodec (RegisterCodec bareServer quiet "Application/JSON")
            scriptCodec "application/json") !! "application/json"
  = Some scriptCodec ∧
  size (codecs (RegisterCodec (RegisterCodec bareServer quiet "Application/JSON")
                  scriptCodec "application/json")) = 1%nat.
Proof.
  intros quiet.
  destruct (RegisterCodec_last_wins bareServer quiet scriptCodec
              "Application/JSON" "application/json" eq_refl) as (Hsame & Hlook & _).
  split; [reflexivity|]. split; [exact Hlook|]. rewrite Hsame. reflexivity.
Defined.

Lemma HasMethod_decides_404_witness :
  let r := post "application/json" "/jsonrpc/v2/Nope" (call "Divide" 7 2) in
  req_Method r = "POST" ∧
  selectCodec anotherServer (contentTypeOf r) = Some scriptCodec ∧
  HasMethod anotherServer "Nope" = false ∧
  EvWriteHeader 404 ∈ (serve anotherServer newResponseWriter r).2.
Proof.
  intros r.
  assert (selectCodec anotherServer (contentTypeOf r) = Some scriptCodec) as Hsel
    by reflexivity.
  destruct (HasMethod_decides_404 anotherServer newResponseWriter r scriptCodec
              eq_refl Hsel) as [H404 _].
  split; [reflexivity|]. split; [exact Hsel|]. split; [reflexivity|].
  apply H404. reflexivity.
Defined.

Lemma serve_never_panics_witness :
  soleDefault anotherServer "" = true ∧ rangeCodecs (codecs anotherServer) ≠ None.
Proof.
  assert (soleDefault anotherServer "" = true) as Hsole by reflexivity.
  split; [exact Hsole|].
  destruct (serve_never_panics anotherServer newResponseWriter
              (postBare "/jsonrpc/v2/Multiply" (call "Multiply" 6 7))) as [_ Hfound].
  exact (Hfound Hsole).
Defined.

Lemma parameters_are_ignored_witness :
  let r := post "application/json; charset=utf-8" "/jsonrpc/v2/Multiply"
             (call "Multiply" 6 7) in
  let plain := post "application/json" "/jsonrpc/v2/Multiply" (call "Multiply" 6 7) in
  strings_Index "application/json" ";" = -1 ∧
  contentTypeOf r = "application/json" ∧
  selectCodec anotherServer (contentTypeOf r)
  = selectCodec anotherServer (contentTypeOf plain).
Proof.
  intros r plain.
  destruct (parameters_are_ignored anotherServer r plain "application/json"
              " charset=utf-8" eq_refl eq_refl eq_refl) as (Hr & _ & Hsame).
  split; [reflexivity|]. split; [exact Hr|exact Hsame].
Defined.

Lemma new_server_answers_415_witness :
  let r := postBare "/jsonrpc/v2/Multiply" (call "Multiply" 6 7) in
  NewServer arith = (Some bareServer, None) ∧
  req_Method r = "POST" ∧
  (serve bareServer newResponseWriter r).2
  = plainEvents 415 "rpc: unrecognized Content-Type: ".
Proof.
  intros r.
  assert (NewServer arith = (Some bareServer, None)) as Hnew by reflexivity.
  destruct (new_server_answers_415 arith bareServer None newResponseWriter r Hnew eq_refl)
    as [_ Hrun].
  split; [exact Hnew|]. split; [reflexivity|]. rewrite Hrun. reflexivity.
Defined.

Lemma sole_codec_is_the_default_witness :
  let r := postBare "/jsonrpc/v2/Multiply" (call "Multiply" 6 7) in
  codecs bareServer = ∅ ∧
  req_Method r = "POST" ∧
  Header_Get (req_Header r) "Content-Type" = "" ∧
  selectCodec (RegisterCodec bareServer scriptCodec "application/json") (contentTypeOf r)
  = Some scriptCodec.
Proof.
  intros r.
  destruct (sole_codec_is_the_default bareServer scriptCodec "application/json"
              newResponseWriter r eq_refl eq_refl eq_refl) as [Hsel _].
  split; [reflexivity|]. split; [reflexivity|]. split; [reflexivity|exact Hsel].
Defined.

Lemma unknown_media_type_is_415_witness :
  let r := post "text/xml" "/jsonrpc/v2/Multiply" (call "Multiply" 6 7) in
  req_Method r = "POST" ∧
  contentTypeOf r ≠ "" ∧
  codecs anotherServer !! ToLower (contentTypeOf r) = None ∧
  size (codecs anotherServer) = 1%nat ∧
  (serve anotherServer newResponseWriter r).2
  = plainEvents 415 "rpc: unrecognized Content-Type: text/xml".
Proof.
  intros r.
  assert (contentTypeOf r ≠ "") as Hne by discriminate.
  assert (codecs anotherServer !! ToLower (contentTypeOf r) = None) as Hnone
    by reflexivity.
  pose proof (unknown_media_type_is_415 anotherServer newResponseWriter r
                eq_refl Hne Hnone) as Hrun.
  split; [reflexivity|]. split; [exact Hne|]. split; [exact Hnone|].
  split; [reflexivity|]. cbv zeta in Hrun. rewrite Hrun. reflexivity.
Defined.

Lemma call_requires_every_check_witness :
  let r := post "application/json" "/jsonrpc/v2/Multiply" (call "Multiply" 6 7) in
  EvCall "Multiply" (VArgs {| A := 6; B := 7 |}) (VInt 0)
  ∈ (serve anotherServer newResponseWriter r).2 ∧
  req_Method r = "POST" ∧
  HasMethod anotherServer (LastPart (req_URL_Path r)) = true.
Proof.
  intros r.
  assert (EvCall "Multiply" (VArgs {| A := 6; B := 7 |}) (VInt 0)
          ∈ (serve anotherServer newResponseWriter r).2) as Hin
    by (vm_compute; repeat constructor).
  destruct (call_requires_every_check anotherServer newResponseWriter r _ _ _ Hin)
    as (HPOST & Hpath & _).
  split; [exact Hin|]. split; [exact HPOST|exact Hpath].
Defined.

Lemma body_is_not_read_before_NewRequest_witness :
  let r := get "/jsonrpc/v2/Multiply" (call "Multiply" 6 7) in
  (EvNewRequest ∉ (serve anotherServer newResponseWriter r).2) ∧
  serve anotherServer newResponseWriter (withBody r garbled)
  = serve anotherServer newResponseWriter r.
Proof.
  intros r.
  assert (EvNewRequest ∉ (serve anotherServer newResponseWriter r).2) as Hnot.
  { vm_compute. intros Hin.
    repeat (apply elem_of_cons in Hin as [Hin|Hin]; try discriminate).
    by apply elem_of_nil in Hin. }
  split; [exact Hnot|].
  exact (body_is_not_read_before_NewRequest anotherServer newResponseWriter r garbled Hnot).
Defined.

Lemma Divide_divides_witness :
  is_int 7 ∧ is_int 2 ∧
  7 = 2 * Quo (Divide {| A := 7; B := 2 |} {| Quo := 0; Rem := 0 |}).1
      + Rem (Divide {| A := 7; B := 2 |} {| Quo := 0; Rem := 0 |}).1.
Proof.
  assert (is_int 7 ∧ is_int 2) as [H7 H2] by (unfold is_int; lia).
  assert ((2 : Z) ≠ 0) as Hb0 by lia.
  assert (¬ ((7 : Z) = - 2 ^ 63 ∧ (2 : Z) = -1)) as Hov by lia.
  destruct (Divide_divides {| A := 7; B := 2 |} {| Quo := 0; Rem := 0 |} H7 H2 Hb0 Hov)
    as (_ & Hid & _).
  split; [exact H7|]. split; [exact H2|exact Hid].
Defined.

Lemma Multiply_through_the_handler_witness :
  let r := post "application/json" "/jsonrpc/v2/Multiply" (call "Multiply" 6 7) in
  req_Method r = "POST" ∧
  selectCodec anotherServer (contentTypeOf r) = Some scriptCodec ∧
  Get (service anotherServer) "Multiply" = inl multiplySpec ∧
  filter (λ e, isCodecWrite e = true) (serve anotherServer newResponseWriter r).2
  = [EvWriteResponse (VInt 42)].
Proof.
  intros r.
  assert (selectCodec anotherServer (contentTypeOf r) = Some scriptCodec) as Hsel
    by reflexivity.
  assert (Get (service anotherServer) "Multiply" = inl multiplySpec) as Hget by reflexivity.
  pose proof (Multiply_through_the_handler anotherServer newResponseWriter r scriptCodec
                multiplySpec 6 7 eq_refl Hsel Hget eq_refl eq_refl Hget eq_refl) as Hrun.
  split; [reflexivity|]. split; [exact Hsel|]. split; [exact Hget|].
  rewrite Hrun. reflexivity.
Defined.

Lemma Divide_through_the_handler_witness :
  let r := post "application/json" "/jsonrpc/v2/Divide" (call "Divide" 1 0) in
  req_Method r = "POST" ∧
  selectCodec anotherServer (contentTypeOf r) = Some scriptCodec ∧
  Get (service anotherServer) "Divide" = inl divideSpec ∧
  filter (λ e, isCodecWrite e = true) (serve anotherServer newResponseWriter r).2
  = [EvCodecWriteError 400 (ErrorString "divide by zero")].
Proof.
  intros r.
  assert (selectCodec anotherServer (contentTypeOf r) = Some scriptCodec) as Hsel
    by reflexivity.
  assert (Get (service anotherServer) "Divide" = inl divideSpec) as Hget by reflexivity.
  pose proof (Divide_through_the_handler anotherServer newResponseWriter r scriptCodec
                divideSpec 1 0 eq_refl Hsel Hget eq_refl eq_refl Hget eq_refl) as Hrun.
  split; [reflexivity|]. split; [exact Hsel|]. split; [exact Hget|].
  cbv zeta in Hrun. rewrite Hrun. reflexivity.
Defined.
